(** * ScriptureNames: a shallow embedding of the verse retriever, the
    name extractor and the chapter pipeline.

    The three Python modules are modelled as follows.
    - [text_retriever.py]: the sqlite tables are lists of rows, the SQL
      queries are filters over them (in storage order), the two regular
      expressions ([<.*?>] and [\b(TEXT \d+|TEXTS \d+-\d+)\b]) are written
      out as the backtracking matchers Python's [re] runs, and a Python
      [str] is a list of code points ([list Z]).
    - [names_extractor.py]: the chapter store file is a [file_state], the
      decoded JSON is a Python value [pyval], the generative service is an
      oracle answering each request given the history of requests.
    - [pipeline.py]: a state and exception monad over the [world]. *)

From Stdlib Require Import String Ascii ZArith Bool Lia List.
Import ListNotations.

(* ------------------------------------------------------------------ *)
(** ** Python strings and character classes *)

Definition pystr := list Z.

(** A Rocq string literal as a list of code points. *)
Definition lit (s : string) : pystr :=
  map (fun a => Z.of_nat (nat_of_ascii a)) (list_ascii_of_string s).

(** The Unicode character classes Python's [re] and [str] consult:
    [\w], [\d] and [str.isspace]. *)
Class PyUnicode := {
  uc_isword : Z -> bool;
  uc_isdigit : Z -> bool;
  uc_isspace : Z -> bool
}.

(** The facts about those classes that hold in Python and that the
    marker regular expression depends on. *)
Class PyUnicodeLaws `{PyUnicode} := {
  digit_is_word : forall c, uc_isdigit c = true -> uc_isword c = true;
  letters_word : forall c, In c (lit "TEXS") -> uc_isword c = true;
  letters_not_digit : forall c, In c (lit "TEXS") -> uc_isdigit c = false;
  space_not_word : uc_isword 32 = false;
  space_not_digit : uc_isdigit 32 = false;
  dash_not_word : uc_isword 45 = false;
  dash_not_digit : uc_isdigit 45 = false
}.

(** Python's classes restricted to code points below 128 (above that
    this instance answers [false]); all concrete inputs below are ASCII. *)
Definition ascii_isdigit (c : Z) : bool := (48 <=? c)%Z && (c <=? 57)%Z.
Definition ascii_isword (c : Z) : bool :=
  ascii_isdigit c || ((65 <=? c)%Z && (c <=? 90)%Z)
  || ((97 <=? c)%Z && (c <=? 122)%Z) || (c =? 95)%Z.
Definition ascii_isspace (c : Z) : bool :=
  ((9 <=? c)%Z && (c <=? 13)%Z) || ((28 <=? c)%Z && (c <=? 31)%Z) || (c =? 32)%Z.

#[global] Instance ascii_unicode : PyUnicode :=
  {| uc_isword := ascii_isword; uc_isdigit := ascii_isdigit;
     uc_isspace := ascii_isspace |}.

Fixpoint is_prefix (p s : pystr) : bool :=
  match p, s with
  | [], _ => true
  | c :: p', d :: s' => (c =? d)%Z && is_prefix p' s'
  | _ :: _, [] => false
  end.

Fixpoint suffixes (s : pystr) : list pystr :=
  s :: match s with [] => [] | _ :: r => suffixes r end.

(** [needle in hay] *)
Definition py_in (needle hay : pystr) : bool :=
  existsb (is_prefix needle) (suffixes hay).

(** [sep.join(l)] *)
Fixpoint py_join (sep : pystr) (l : list pystr) : pystr :=
  match l with
  | [] => []
  | [x] => x
  | x :: r => x ++ sep ++ py_join sep r
  end.

Section Strip.
Context `{PyUnicode}.

Fixpoint lstrip (s : pystr) : pystr :=
  match s with
  | c :: r => if uc_isspace c then lstrip r else s
  | [] => []
  end.

(** [s.strip()] *)
Definition py_strip (s : pystr) : pystr := rev (lstrip (rev (lstrip s))).

End Strip.

(** [s.startswith(tuple)] *)
Definition py_startswith_any (s : pystr) (ps : list pystr) : bool :=
  existsb (fun p => is_prefix p s) ps.

(** [f"{n}"] for a Python int. *)
Fixpoint pos_digits (fuel : nat) (n : Z) (acc : pystr) : pystr :=
  match fuel with
  | O => acc
  | S f =>
      let acc' := (48 + n mod 10)%Z :: acc in
      if (n <? 10)%Z then acc' else pos_digits f (n / 10)%Z acc'
  end.

Definition py_str_int (n : Z) : pystr :=
  let digits m := pos_digits (S (Z.to_nat (Z.log2 m))) m [] in
  if (n <? 0)%Z then 45%Z :: digits (- n)%Z else digits n.

(* ------------------------------------------------------------------ *)
(** ** Python exceptions raised along the modelled paths *)

Inductive exn :=
| ValueError (msg : pystr)   (* ChapterNotFound is raised as this *)
| UnicodeDecodeError         (* subclass of ValueError *)
| JSONDecodeError            (* subclass of ValueError *)
| FileNotFoundError          (* subclass of OSError *)
| PermissionError            (* subclass of OSError *)
| TypeError
| KeyError
| AttributeError
| IndexError
| APIError.                  (* google.genai errors.APIError *)

(** [isinstance(e, ValueError)] *)
Definition is_value_error (e : exn) : bool :=
  match e with
  | ValueError _ | UnicodeDecodeError | JSONDecodeError => true
  | _ => false
  end.

(* ------------------------------------------------------------------ *)
(** ** [re.sub(r'<.*?>', ' ', text)] *)

(** The lazy [.*?>] after a [<]: the shortest run of characters other
    than a newline up to the first [>]; returns what follows the [>]. *)
Fixpoint lazy_close (s : pystr) : option pystr :=
  match s with
  | [] => None
  | c :: r =>
      if (c =? 62)%Z then Some r
      else if (c =? 10)%Z then None
      else lazy_close r
  end.

Fixpoint sub_tags (fuel : nat) (s : pystr) : pystr :=
  match fuel with
  | O => s
  | S f =>
      match s with
      | [] => []
      | c :: r =>
          if (c =? 60)%Z then
            match lazy_close r with
            | Some rest => 32%Z :: sub_tags f rest
            | None => c :: sub_tags f r
            end
          else c :: sub_tags f r
      end
  end.

Definition strip_markup (s : pystr) : pystr := sub_tags (length s) s.

(* ------------------------------------------------------------------ *)
(** ** [re.split(r'\b(TEXT \d+|TEXTS \d+-\d+)\b', s)] *)

Section MarkerRegex.
Context `{PyUnicode}.

Definition is_word_at (s : pystr) (i : nat) : bool :=
  match nth_error s i with Some c => uc_isword c | None => false end.

(** [\b] at position [i]. *)
Definition boundary (s : pystr) (i : nat) : bool :=
  match i with
  | O => is_word_at s 0
  | S j => xorb (is_word_at s j) (is_word_at s i)
  end.

Fixpoint digit_count (s : pystr) : nat :=
  match s with
  | c :: r => if uc_isdigit c then S (digit_count r) else O
  | [] => O
  end.

Definition digit_run (s : pystr) (j : nat) : nat := digit_count (skipn j s).

(** Greedy [\d+] at [j] with backtracking: the continuation is tried
    after [n], [n-1], ..., [1] digits. *)
Fixpoint try_lengths (cont : nat -> option nat) (j n : nat) : option nat :=
  match n with
  | O => None
  | S m =>
      match cont (j + S m) with
      | Some e => Some e
      | None => try_lengths cont j m
      end
  end.

Definition digits_then (s : pystr) (j : nat) (cont : nat -> option nat)
  : option nat := try_lengths cont j (digit_run s j).

Definition end_boundary (s : pystr) (e : nat) : option nat :=
  if boundary s e then Some e else None.

(** First alternative [TEXT \d+] followed by the closing [\b]. *)
Definition alt_text (s : pystr) (i : nat) : option nat :=
  if is_prefix (lit "TEXT ") (skipn i s)
  then digits_then s (i + 5) (end_boundary s) else None.

(** Second alternative [TEXTS \d+-\d+] followed by the closing [\b]. *)
Definition alt_texts (s : pystr) (i : nat) : option nat :=
  if is_prefix (lit "TEXTS ") (skipn i s)
  then digits_then s (i + 6)
         (fun e => if is_prefix (lit "-") (skipn e s)
                   then digits_then s (e + 1) (end_boundary s) else None)
  else None.

(** The whole pattern anchored at [i]: its end position, if it matches. *)
Definition marker_match_at (s : pystr) (i : nat) : option nat :=
  if boundary s i then
    match alt_text s i with
    | Some e => Some e
    | None => alt_texts s i
    end
  else None.

(** [pattern.search(s, i)], trying positions [i], [i+1], ... *)
Fixpoint search_from (s : pystr) (fuel i : nat) : option (nat * nat) :=
  match fuel with
  | O => None
  | S f =>
      match marker_match_at s i with
      | Some e => Some (i, e)
      | None => search_from s f (S i)
      end
  end.

(** The matches [re.split] walks over (as [finditer]): each search
    resumes at the end of the previous (non-empty) match. *)
Fixpoint find_all (s : pystr) (fuel i : nat) : list (nat * nat) :=
  match fuel with
  | O => []
  | S f =>
      match search_from s (S (length s)) i with
      | Some (a, e) => (a, e) :: find_all s f e
      | None => []
      end
  end.

Definition marker_matches (s : pystr) : list (nat * nat) :=
  find_all s (S (length s)) 0.

Definition substr (s : pystr) (a b : nat) : pystr := firstn (b - a) (skipn a s).

(** With one capturing group, [re.split] returns the text before each
    match, then the group, and finally the tail. *)
Fixpoint split_pieces (s : pystr) (last : nat) (ms : list (nat * nat))
  : list pystr :=
  match ms with
  | [] => [skipn last s]
  | (a, e) :: r => substr s last a :: substr s a e :: split_pieces s e r
  end.

Definition marker_split (s : pystr) : list pystr :=
  split_pieces s 0 (marker_matches s).

(** The split points: the start of every delimiter [re.split] cuts at. *)
Definition split_points (s : pystr) : list nat := map fst (marker_matches s).

End MarkerRegex.

(* ------------------------------------------------------------------ *)
(** ** The sqlite database: [contents] and [texts] *)

Record contents_row := {
  c_title : pystr;
  c_record : Z;
  c_level : Z;
  c_parent : Z;
  c_next_sibling : Z
}.

Record texts_row := {
  t_recid : Z;
  t_plain : pystr
}.

Record database := {
  db_contents : list contents_row;
  db_texts : list texts_row
}.

(** A row [(parent.title, child.title, first_text, last_text)]. *)
Record chapter_set := {
  cs_parent_title : pystr;
  cs_title : pystr;
  cs_first_text : Z;
  cs_last_text : Z
}.

(** SQLite's [LIKE]: [_] is one character, [%] any run, and ASCII
    letters compare case-insensitively. *)
Definition ascii_fold (c : Z) : Z :=
  if (65 <=? c)%Z && (c <=? 90)%Z then (c + 32)%Z else c.

Fixpoint sql_like (p s : pystr) : bool :=
  match p with
  | [] => match s with [] => true | _ => false end
  | c :: p' =>
      if (c =? 37)%Z then existsb (sql_like p') (suffixes s)
      else match s with
           | [] => false
           | d :: s' =>
               ((c =? 95)%Z || (ascii_fold c =? ascii_fold d)%Z) && sql_like p' s'
           end
  end.

Definition chapter_title_patterns : list pystr :=
  [lit "SB _._:%"; lit "SB _.__:%"; lit "SB __._:%"; lit "SB __.__:%"].

(** The rows [list_all_sb_chapters] fetches and returns: the level-6
    nodes whose title matches one of the patterns, joined with their
    parent (nested-loop order). Its write of [sb_chapters.json] is in
    [list_all_sb_chapters_io] below. *)
Definition list_all_sb_chapters (db : database) : list chapter_set :=
  flat_map
    (fun child =>
       if (c_level child =? 6)%Z
          && existsb (fun p => sql_like p (c_title child)) chapter_title_patterns
       then map (fun parent =>
                   {| cs_parent_title := c_title parent;
                      cs_title := c_title child;
                      cs_first_text := c_record child;
                      cs_last_text := c_next_sibling child |})
                (filter (fun parent => (c_record parent =? c_parent child)%Z)
                        (db_contents db))
       else [])
    (db_contents db).

(** [SELECT plain FROM texts WHERE recid >= first AND recid <= last] *)
Definition select_plain (db : database) (first last : Z) : list pystr :=
  map t_plain
    (filter (fun r => (first <=? t_recid r)%Z && (t_recid r <=? last)%Z)
            (db_texts db)).

Section Retriever.
Context `{PyUnicode}.

(** The body of the matching branch of [get_texts_from_chapter]: fetch,
    strip markup, join with a space, split at the markers, keep the
    stripped pieces starting with ["TEXT "] or ["TEXTS "]. *)
Definition texts_of_span (db : database) (first_text_record last_text_record : Z)
  : list pystr :=
  let unformatted_texts := select_plain db first_text_record last_text_record in
  let formatted_texts := map strip_markup unformatted_texts in
  let concatenated_text := py_join (lit " ") formatted_texts in
  let split_texts := marker_split concatenated_text in
  map py_strip
    (filter (fun piece => py_startswith_any (py_strip piece)
                            [lit "TEXT "; lit "TEXTS "])
            split_texts).

Definition canto_chapter_key (canto chapter : Z) : pystr :=
  lit "SB " ++ py_str_int canto ++ lit "." ++ py_str_int chapter ++ lit ":".

(** The [for chapter_set in chapters] loop. *)
Fixpoint scan_chapters (db : database) (canto_chapter : pystr)
         (chapters : list chapter_set) : exn + list pystr :=
  match chapters with
  | [] => inl (ValueError (canto_chapter ++ lit " not found in SB."))
  | cs :: rest =>
      if py_in canto_chapter (cs_title cs)
      then inr (texts_of_span db (cs_first_text cs) (cs_last_text cs))
      else scan_chapters db canto_chapter rest
  end.

(** The value [get_texts_from_chapter] returns or raises on database [db];
    the run with the file write of [list_all_sb_chapters] is
    [get_texts_from_chapter_io] below. *)
Definition get_texts_from_chapter (db : database) (canto chapter : Z)
  : exn + list pystr :=
  scan_chapters db (canto_chapter_key canto chapter) (list_all_sb_chapters db).

End Retriever.

(* ------------------------------------------------------------------ *)
(** ** Decoded JSON, name records and the chapter store file *)

#[local] Set Warnings "-register-all".

(** The Python value [json.load] produces (numbers abstracted to [Z]). *)
Inductive pyval :=
| PNone
| PBool (b : bool)
| PNum (n : Z)
| PStr (s : pystr)
| PList (l : list pyval)
| PDict (d : list (pystr * pyval)).

(** [AugmentedSastricName] *)
Record name_record := {
  nr_name : pystr;
  nr_definition : pystr;
  nr_context : pystr;
  nr_references : list pystr;
  nr_category : pystr;
  nr_gender : pystr
}.

(** [name.model_dump()] *)
Definition model_dump (r : name_record) : pyval :=
  PDict [(lit "name", PStr (nr_name r));
         (lit "definition", PStr (nr_definition r));
         (lit "context", PStr (nr_context r));
         (lit "references", PList (map PStr (nr_references r)));
         (lit "category", PStr (nr_category r));
         (lit "gender", PStr (nr_gender r))].

(** What opening and decoding a path meets. *)
Inductive file_state :=
| Missing                 (* open raises FileNotFoundError *)
| Unreadable              (* open raises PermissionError *)
| NotUtf8                 (* read raises UnicodeDecodeError *)
| NotJson                 (* json.load raises JSONDecodeError *)
| Json (v : pyval).       (* json.load returns v *)

(** [json.load(open(path, 'r', encoding='utf-8'))] *)
Definition read_json (f : file_state) : exn + pyval :=
  match f with
  | Missing => inl FileNotFoundError
  | Unreadable => inl PermissionError
  | NotUtf8 => inl UnicodeDecodeError
  | NotJson => inl JSONDecodeError
  | Json v => inr v
  end.

Fixpoint pystr_eqb (a b : pystr) : bool :=
  match a, b with
  | [], [] => true
  | x :: a', y :: b' => (x =? y)%Z && pystr_eqb a' b'
  | _, _ => false
  end.

Fixpoint dict_get (d : list (pystr * pyval)) (k : pystr) : option pyval :=
  match d with
  | [] => None
  | (k', v) :: r => if pystr_eqb k k' then Some v else dict_get r k
  end.

(** [item['name']] *)
Definition getitem_name (item : pyval) : exn + pyval :=
  match item with
  | PDict d =>
      match dict_get d (lit "name") with Some v => inr v | None => inl KeyError end
  | _ => inl TypeError
  end.

(** [for item in data] *)
Definition py_iter (v : pyval) : exn + list pyval :=
  match v with
  | PList l => inr l
  | PDict d => inr (map (fun kv => PStr (fst kv)) d)
  | PStr s => inr (map (fun c => PStr [c]) s)
  | _ => inl TypeError
  end.

Fixpoint map_exn {A B} (f : A -> exn + B) (l : list A) : exn + list B :=
  match l with
  | [] => inr []
  | x :: r =>
      match f x with
      | inl e => inl e
      | inr y => match map_exn f r with inl e => inl e | inr ys => inr (y :: ys) end
      end
  end.

(** [isinstance(e, Exception)]: every modelled exception is one. *)
Definition is_exception (e : exn) : bool :=
  match e with
  | ValueError _ | UnicodeDecodeError | JSONDecodeError | FileNotFoundError
  | PermissionError | TypeError | KeyError | AttributeError | IndexError
  | APIError => true
  end.

(** The [try] body of [load_existing_names]. *)
Definition load_existing_names_body (f : file_state) : exn + list pyval :=
  match read_json f with
  | inl e => inl e
  | inr data =>
      match py_iter data with
      | inl e => inl e
      | inr items => map_exn getitem_name items
      end
  end.

(** [load_existing_names] with its two handlers. *)
Definition load_existing_names (f : file_state) : exn + list pyval :=
  match load_existing_names_body f with
  | inr existing_names => inr existing_names
  | inl FileNotFoundError => inr []
  | inl e => if is_exception e then inr [] else inl e
  end.

(* ------------------------------------------------------------------ *)
(** ** The world, the generative service and the monad *)

(** A model turn replayed as history. *)
Definition content := pystr.

(** The two requests [extract_names] sends; the prompts are functions of
    these fields (the exclusion text lists the names given here). *)
Inductive gen_request :=
| Round1 (source_str source_ref : pystr) (exclusions : list pystr)
| Round2 (source_str source_ref : pystr) (exclusions : list pystr)
         (history : content).

(** [response.candidates[i].content] and [response.parsed]. *)
Record gen_response := {
  gr_candidates : list content;
  gr_parsed : option (list name_record)
}.

Record world := {
  w_db : database;
  w_files : pystr -> file_state;
  (* the service: answers a request given the requests sent before it *)
  w_gen : list gen_request -> gen_request -> exn + gen_response;
  w_trace : list gen_request
}.

Definition M (A : Type) : Type := world -> (exn + A) * world.

Definition ret {A} (a : A) : M A := fun w => (inr a, w).

Definition bind {A B} (m : M A) (k : A -> M B) : M B :=
  fun w => match m w with
           | (inr a, w') => k a w'
           | (inl e, w') => (inl e, w')
           end.

Definition lift {A} (r : exn + A) : M A := fun w => (r, w).

Notation "x <- m ;; k" := (bind m (fun x => k))
  (at level 61, m at next level, right associativity).

Definition read_file (path : pystr) : M file_state :=
  fun w => (inr (w_files w path), w).

Definition write_file (path : pystr) (v : pyval) : M unit :=
  fun w => (inr tt,
            {| w_db := w_db w;
               w_files := fun p => if pystr_eqb p path then Json v else w_files w p;
               w_gen := w_gen w;
               w_trace := w_trace w |}).

(** [client.models.generate_content(...)]: the request is sent (and
    recorded) whatever the answer. *)
Definition call_gen (req : gen_request) : M gen_response :=
  fun w => (w_gen w (w_trace w) req,
            {| w_db := w_db w; w_files := w_files w; w_gen := w_gen w;
               w_trace := w_trace w ++ [req] |}).

(** [', '.join(existing_names)] needs every name to be a [str]. *)
Definition py_str_list (l : list pyval) : exn + list pystr :=
  map_exn (fun v => match v with PStr s => inr s | _ => inl TypeError end) l.

(** Python truthiness of a [str] / a [list]. *)
Definition truthy_str (s : pystr) : bool := match s with [] => false | _ => true end.

(* ------------------------------------------------------------------ *)
(** ** [text_retriever.py] with its file write *)

(** [json.dump(chapters, f, indent=4)]: each row tuple is dumped as an
    array. *)
Definition chapters_json (chapters : list chapter_set) : pyval :=
  PList (map (fun cs => PList [PStr (cs_parent_title cs); PStr (cs_title cs);
                              PNum (cs_first_text cs); PNum (cs_last_text cs)])
             chapters).

Definition sb_chapters_path : pystr := lit "sb_chapters.json".

(** [list_all_sb_chapters()]: the query, then
    [with open('sb_chapters.json', 'w') as f: json.dump(chapters, f)],
    then [return chapters]. *)
Definition list_all_sb_chapters_io : M (list chapter_set) :=
  chapters <- (fun w => (inr (list_all_sb_chapters (w_db w)), w)) ;;
  _ <- write_file sb_chapters_path (chapters_json chapters) ;;
  ret chapters.

Section RetrieverIO.
Context `{PyUnicode}.

(** [get_texts_from_chapter(canto, chapter)]: [chapters =
    list_all_sb_chapters()], then the [for chapter_set in chapters] loop. *)
Definition get_texts_from_chapter_io (canto chapter : Z) : M (list pystr) :=
  chapters <- list_all_sb_chapters_io ;;
  (fun w => (scan_chapters (w_db w) (canto_chapter_key canto chapter) chapters, w)).

End RetrieverIO.

(* ------------------------------------------------------------------ *)
(** ** [names_extractor.py] *)

(** The opening of [extract_names]: load the names to exclude (when a
    file is given) and build the exclusion text from them. *)
Definition load_exclusions (exclude_names_file : pystr) : M (list pystr) :=
  existing_names <-
    (if truthy_str exclude_names_file
     then f <- read_file exclude_names_file ;; lift (load_existing_names f)
     else ret []) ;;
  match existing_names with
  | [] => ret []
  | _ => lift (py_str_list existing_names)
  end.

(** [extract_names(source_str, source_ref, exclude_names_file)]: the
    result is [second_response.parsed] ([None] when not parsed). *)
Definition extract_names (source_str source_ref exclude_names_file : pystr)
  : M (option (list name_record)) :=
  exclusions <- load_exclusions exclude_names_file ;;
  first_response <- call_gen (Round1 source_str source_ref exclusions) ;;
  model_content_for_history <-
    lift (match gr_candidates first_response with
          | c :: _ => inr c
          | [] => inl IndexError
          end) ;;
  second_response <-
    call_gen (Round2 source_str source_ref exclusions model_content_for_history) ;;
  ret (gr_parsed second_response).

Definition store_path (canto chapter : Z) : pystr :=
  lit "sb_canto" ++ py_str_int canto ++ lit "_chapter" ++ py_str_int chapter
  ++ lit "_names.json".

(** The [try] around [json.load] in [extract_names_to_json]: only
    [FileNotFoundError] and [json.JSONDecodeError] are handled. *)
Definition read_existing_data (f : file_state) : exn + pyval :=
  match read_json f with
  | inr v => inr v
  | inl FileNotFoundError => inr (PList [])
  | inl JSONDecodeError => inr (PList [])
  | inl e => inl e
  end.

(** [existing_data.extend(names_data)] *)
Definition py_extend (existing_data : pyval) (names_data : list pyval)
  : exn + pyval :=
  match existing_data with
  | PList l => inr (PList (l ++ names_data))
  | _ => inl AttributeError
  end.

Definition extract_names_to_json (canto chapter : Z)
           (found_names : option (list name_record)) : M unit :=
  names_data <-
    lift (match found_names with
          | Some l => inr (map model_dump l)
          | None => inl TypeError
          end) ;;
  f <- read_file (store_path canto chapter) ;;
  existing_data <- lift (read_existing_data f) ;;
  updated <- lift (py_extend existing_data names_data) ;;
  write_file (store_path canto chapter) updated.

(* ------------------------------------------------------------------ *)
(** ** [pipeline.py] *)

Definition source_ref_of (canto chapter : Z) : pystr :=
  lit "Srimad Bhagavatam, Canto " ++ py_str_int canto ++ lit ", Chapter "
  ++ py_str_int chapter.

(** [m.ceil(len(texts) / 20)] (exact for any list length below 2^49). *)
Definition max_iter_of (texts : list pystr) : nat := (length texts + 19) / 20.

(** [texts[a:b]] *)
Definition py_slice {A} (l : list A) (a b : nat) : list A :=
  firstn (b - a) (skipn a l).

(** The verse units of batch [curr_iter]. *)
Definition batch_slice (texts : list pystr) (curr_iter : nat) : list pystr :=
  let start_index := 20 * curr_iter in
  let step := Nat.min 20 (length texts - start_index) in
  py_slice texts start_index (start_index + step).

Section Pipeline.
Context `{PyUnicode}.

(** One iteration of the [while] loop of [get_names_from_chapter]. *)
Definition run_batch (canto chapter : Z) (texts : list pystr) (curr_iter : nat)
  : M unit :=
  let source_str := py_join (lit " ") (batch_slice texts curr_iter) in
  found_names <- extract_names source_str (source_ref_of canto chapter)
                   (store_path canto chapter) ;;
  extract_names_to_json canto chapter found_names.

(** [while curr_iter < max_iter]: [remaining] is [max_iter - curr_iter]. *)
Fixpoint batch_loop (canto chapter : Z) (texts : list pystr)
         (remaining curr_iter : nat) : M unit :=
  match remaining with
  | O => ret tt
  | S r =>
      _ <- run_batch canto chapter texts curr_iter ;;
      batch_loop canto chapter texts r (S curr_iter)
  end.

Definition get_names_from_chapter (canto chapter : Z) : M unit :=
  texts <- get_texts_from_chapter_io canto chapter ;;
  batch_loop canto chapter texts (max_iter_of texts) 0.

Inductive drive_result :=
| Finished
| Aborted (e : exn)
| OutOfFuel.

(** The [while canto <= 12] loop of [get_names_from_sb], with fuel. *)
Fixpoint sb_loop (fuel : nat) (canto chapter : Z) (w : world)
  : drive_result * world :=
  match fuel with
  | O => (OutOfFuel, w)
  | S f =>
      if (canto <=? 12)%Z then
        match get_names_from_chapter canto chapter w with
        | (inr _, w') => sb_loop f canto (chapter + 1) w'
        | (inl e, w') =>
            if is_value_error e then sb_loop f (canto + 1) 1 w'
            else (Aborted e, w')
        end
      else (Finished, w)
  end.

Definition get_names_from_sb (fuel : nat) (w : world) : drive_result * world :=
  sb_loop fuel 1 1 w.

End Pipeline.

(* ------------------------------------------------------------------ *)
(** ** Vocabulary of the statements *)

Section MarkerSpec.
Context `{PyUnicode}.

(** [k] digits start at position [j]. *)
Definition digits_at (s : pystr) (j k : nat) : Prop :=
  forall i, i < k -> exists c, nth_error s (j + i) = Some c /\ uc_isdigit c = true.

(** Position [p] starts a word: nothing, or a non-word character, before it. *)
Definition word_start (s : pystr) (p : nat) : bool :=
  match p with O => true | S q => negb (is_word_at s q) end.

(** A whole-word marker token at [p]: [TEXT <digits>] or
    [TEXTS <digits>-<digits>], with no word character right before it
    nor right after its last digit. *)
Definition whole_word_marker (s : pystr) (p : nat) : Prop :=
  word_start s p = true /\
  ((is_prefix (lit "TEXT ") (skipn p s) = true /\
    exists k, 1 <= k /\ digits_at s (p + 5) k /\ is_word_at s (p + 5 + k) = false)
   \/
   (is_prefix (lit "TEXTS ") (skipn p s) = true /\
    exists k1 k2, 1 <= k1 /\ digits_at s (p + 6) k1 /\
      nth_error s (p + 6 + k1) = Some 45%Z /\
      1 <= k2 /\ digits_at s (p + 7 + k1) k2 /\
      is_word_at s (p + 7 + k1 + k2) = false)).

End MarkerSpec.

(** The sequence a store file holds before an append, when the code
    reads one: missing and undecodable files start from the empty list. *)
Definition prior_sequence (f : file_state) : option (list pyval) :=
  match f with
  | Missing | NotJson => Some []
  | Json (PList l) => Some l
  | _ => None
  end.

(** The source texts and the exclusions of the round-1 requests of a trace. *)
Definition round1_sources (t : list gen_request) : list pystr :=
  flat_map (fun r => match r with Round1 src _ _ => [src] | _ => [] end) t.


(* ------------------------------------------------------------------ *)
(** ** Concrete inputs *)

Definition node (title : string) (record level parent next : Z) : contents_row :=
  {| c_title := lit title; c_record := record; c_level := level;
     c_parent := parent; c_next_sibling := next |}.

Definition row (recid : Z) (plain : pystr) : texts_row :=
  {| t_recid := recid; t_plain := plain |}.

(** Chapter 1.1 with a header row and two verses. *)
Definition db_two_verses : database :=
  {| db_contents := [node "Canto 1" 1 5 0 0; node "SB 1.1: Questions" 10 6 1 12];
     db_texts := [row 10 (lit "<h1>Chapter One</h1>");
                  row 11 (lit "TEXT 1 <i>om namo</i> bhagavate");
                  row 12 (lit "TEXT 2 dharmah projjhita")] |}.

(** Two catalog entries whose titles both contain ["SB 1.1:"]. *)
Definition db_duplicate_titles : database :=
  {| db_contents := [node "Canto 1" 1 5 0 0;
                     node "SB 1.1: Questions" 10 6 1 11;
                     node "SB 1.1: Questions (copy)" 12 6 1 12];
     db_texts := [row 10 (lit "Header"); row 11 (lit "TEXT 1 first");
                  row 12 (lit "TEXT 2 second")] |}.

(** Rows [TEXT 1 verse] ... [TEXT n verse] with record ids 11 ... *)
Fixpoint verse_rows (n : nat) : list texts_row :=
  match n with
  | O => []
  | S m => verse_rows m ++
           [row (11 + Z.of_nat m) (lit "TEXT " ++ py_str_int (Z.of_nat n) ++ lit " verse")]
  end.

(** Chapter 1.1 with 21 verses: two batches. *)
Definition db_21_verses : database :=
  {| db_contents := [node "Canto 1" 1 5 0 0; node "SB 1.1: Questions" 10 6 1 31];
     db_texts := row 10 (lit "Header") :: verse_rows 21 |}.

Definition record_named (n : string) : name_record :=
  {| nr_name := lit n; nr_definition := lit "definition"; nr_context := lit "context";
     nr_references := [lit "SB 1.1.1"]; nr_category := lit "Names of Krishna";
     nr_gender := lit "Male" |}.

(** A service answering every round-1 request with [r1] and every
    round-2 request with [r2]. *)
Definition stub_gen (r1 r2 : list name_record)
  : list gen_request -> gen_request -> exn + gen_response :=
  fun _ req =>
    match req with
    | Round1 _ _ _ => inr {| gr_candidates := [lit "round one"]; gr_parsed := Some r1 |}
    | Round2 _ _ _ _ => inr {| gr_candidates := [lit "round two"]; gr_parsed := Some r2 |}
    end.

Definition world0 (db : database) (files : pystr -> file_state)
           (gen : list gen_request -> gen_request -> exn + gen_response) : world :=
  {| w_db := db; w_files := files; w_gen := gen; w_trace := [] |}.

(** No store file exists yet. *)
Definition no_files : pystr -> file_state := fun _ => Missing.

(** The store of chapter 1.1 holds bytes that are not UTF-8. *)
Definition corrupt_store_1_1 : pystr -> file_state :=
  fun p => if pystr_eqb p (store_path 1 1) then NotUtf8 else Missing.

(** The catalog entries of [db_duplicate_titles]. *)
Definition first_copy : chapter_set :=
  {| cs_parent_title := lit "Canto 1"; cs_title := lit "SB 1.1: Questions";
     cs_first_text := 10; cs_last_text := 11 |}.

Definition second_copy : chapter_set :=
  {| cs_parent_title := lit "Canto 1"; cs_title := lit "SB 1.1: Questions (copy)";
     cs_first_text := 12; cs_last_text := 12 |}.


(** Chapter 1.1 with 21 verses, no store yet, and a service finding
    "Krishna" in both rounds of every batch. *)
Definition world_21_verses : world :=
  world0 db_21_verses no_files
    (stub_gen [record_named "Krishna"] [record_named "Krishna"]).

(** Chapter 1.1 with two verses whose store file is not UTF-8. *)
Definition world_corrupt_store : world :=
  world0 db_two_verses corrupt_store_1_1
    (stub_gen [record_named "Krishna"] [record_named "Krishna"]).

(** A service whose every request fails with an API error. *)
Definition failing_gen : list gen_request -> gen_request -> exn + gen_response :=
  fun _ _ => inl APIError.

(** [int(s)] on the decimal strings [str(n)] produces: an optional minus
    sign, then ASCII digits. *)
Definition parse_digits (s : pystr) : Z :=
  fold_left (fun acc c => (10 * acc + (c - 48))%Z) s 0%Z.

Definition py_int (s : pystr) : Z :=
  match s with
  | c :: r => if (c =? 45)%Z then (- parse_digits r)%Z else parse_digits s
  | [] => parse_digits s
  end.

(** Chapter 1.1 whose rows carry no verse marker. *)
Definition db_no_verses : database :=
  {| db_contents := [node "Canto 1" 1 5 0 0; node "SB 1.1: Questions" 10 6 1 11];
     db_texts := [row 10 (lit "Header"); row 11 (lit "Introduction")] |}.


(* ================================================================== *)
(** * Proofs *)

Lemma lit_TEXT : lit "TEXT " = [84; 69; 88; 84; 32]%Z.
Proof. reflexivity. Qed.

Lemma lit_TEXTS : lit "TEXTS " = [84; 69; 88; 84; 83; 32]%Z.
Proof. reflexivity. Qed.

Lemma lit_dash : lit "-" = [45]%Z.
Proof. reflexivity. Qed.

Lemma skipn_nth (s : pystr) (p : nat) :
  skipn p s = match nth_error s p with
              | Some x => x :: skipn (S p) s
              | None => []
              end.
Proof.
  revert p; induction s as [|x r IH]; intros p; destruct p as [|p]; simpl; auto.
Qed.

Lemma is_prefix_nth (l s : pystr) (p : nat) :
  is_prefix l (skipn p s) = true <->
  forall i, i < length l -> nth_error s (p + i) = nth_error l i.
Proof.
  revert p; induction l as [|a l IH]; intros p.
  - split; intros; [simpl in *; lia | reflexivity].
  - rewrite skipn_nth. destruct (nth_error s p) as [z|] eqn:E.
    + cbn [is_prefix]. split.
      * intros H. apply andb_prop in H. destruct H as [H1 H2].
        apply Z.eqb_eq in H1. subst z. rewrite IH in H2.
        intros i Hi. destruct i as [|i].
        -- rewrite Nat.add_0_r. exact E.
        -- replace (p + S i) with (S p + i) by lia. apply H2. simpl in Hi. lia.
      * intros H. apply andb_true_intro. split.
        -- specialize (H 0 ltac:(simpl; lia)). rewrite Nat.add_0_r, E in H.
           injection H as ->. apply Z.eqb_refl.
        -- apply IH. intros i Hi. replace (S p + i) with (p + S i) by lia.
           apply (H (S i)). simpl. lia.
    + split; [discriminate|]. intros H. specialize (H 0 ltac:(simpl; lia)).
      rewrite Nat.add_0_r, E in H. discriminate.
Qed.

Lemma is_prefix_head (a : Z) (l s : pystr) (p : nat) :
  is_prefix (a :: l) (skipn p s) = true -> nth_error s p = Some a.
Proof.
  intros H. apply is_prefix_nth with (i := 0) in H; [|simpl; lia].
  rewrite Nat.add_0_r in H. exact H.
Qed.

Section MarkerProofs.
Context {U : PyUnicode} {L : @PyUnicodeLaws U}.

Lemma T_word : uc_isword 84%Z = true.
Proof. apply letters_word. simpl. auto. Qed.

Lemma X_word : uc_isword 88%Z = true.
Proof. apply letters_word. simpl. auto. Qed.

Lemma T_not_digit : uc_isdigit 84%Z = false.
Proof. apply letters_not_digit. simpl. auto. Qed.

Lemma digit_count_spec (l : pystr) (i : nat) :
  i < digit_count l -> exists c, nth_error l i = Some c /\ uc_isdigit c = true.
Proof.
  revert i; induction l as [|c r IH]; intros i Hi; simpl in Hi.
  - lia.
  - destruct (uc_isdigit c) eqn:D; [|lia].
    destruct i as [|i]; simpl.
    + eauto.
    + apply IH. lia.
Qed.

Lemma digit_count_exact (l : pystr) (k : nat) :
  (forall i, i < k -> exists c, nth_error l i = Some c /\ uc_isdigit c = true) ->
  (forall c, nth_error l k = Some c -> uc_isdigit c = false) ->
  digit_count l = k.
Proof.
  revert k; induction l as [|c r IH]; intros k Hd Hn.
  - destruct k as [|k]; [reflexivity|].
    destruct (Hd 0 ltac:(lia)) as [c [Hc _]]. discriminate.
  - destruct k as [|k]; simpl.
    + rewrite (Hn c eq_refl). reflexivity.
    + destruct (Hd 0 ltac:(lia)) as [c' [Hc' Dc]]. simpl in Hc'.
      injection Hc' as <-. rewrite Dc. f_equal. apply IH.
      * intros i Hi. apply (Hd (S i)). lia.
      * intros c' Hc'. apply Hn. exact Hc'.
Qed.

Lemma try_lengths_some (cont : nat -> option nat) (j n e : nat) :
  try_lengths cont j n = Some e -> exists m, 1 <= m <= n /\ cont (j + m) = Some e.
Proof.
  induction n as [|n IH]; simpl; intros H; [discriminate|].
  destruct (cont (j + S n)) eqn:C.
  - injection H as <-. exists (S n). split; [lia | exact C].
  - destruct (IH H) as [m [Hm Hc]]. exists m. split; [lia | exact Hc].
Qed.

Lemma digits_at_run (s : pystr) (j m : nat) : m <= digit_run s j -> digits_at s j m.
Proof.
  intros Hm i Hi. rewrite <- nth_error_skipn. apply digit_count_spec.
  unfold digit_run in Hm. lia.
Qed.

Lemma digit_run_exact (s : pystr) (j k : nat) :
  digits_at s j k -> is_word_at s (j + k) = false -> digit_run s j = k.
Proof.
  intros Hd Hw. unfold digit_run. apply digit_count_exact.
  - intros i Hi. rewrite nth_error_skipn. apply Hd, Hi.
  - intros c Hc. rewrite nth_error_skipn in Hc. unfold is_word_at in Hw.
    rewrite Hc in Hw. destruct (uc_isdigit c) eqn:D; [|reflexivity].
    rewrite (digit_is_word c D) in Hw. discriminate.
Qed.

Lemma word_at_digit (s : pystr) (j k i : nat) :
  digits_at s j k -> i < k -> is_word_at s (j + i) = true.
Proof.
  intros Hd Hi. destruct (Hd i Hi) as [c [Hc D]].
  unfold is_word_at. rewrite Hc. apply digit_is_word, D.
Qed.

Lemma boundary_after_digits (s : pystr) (j k : nat) :
  digits_at s j k -> 1 <= k -> boundary s (j + k) = negb (is_word_at s (j + k)).
Proof.
  intros Hd Hk. destruct k as [|k]; [lia|].
  replace (j + S k) with (S (j + k)) by lia.
  cbn [boundary]. rewrite (word_at_digit s j (S k) k Hd ltac:(lia)). reflexivity.
Qed.

Lemma boundary_T (s : pystr) (p : nat) :
  nth_error s p = Some 84%Z -> boundary s p = word_start s p.
Proof.
  intros Hp.
  assert (W : is_word_at s p = true)
    by (unfold is_word_at; rewrite Hp; apply T_word).
  destruct p as [|q]; cbn [boundary word_start].
  - exact W.
  - rewrite W. destruct (is_word_at s q); reflexivity.
Qed.

Lemma alt_text_sound (s : pystr) (p e : nat) :
  alt_text s p = Some e ->
  is_prefix (lit "TEXT ") (skipn p s) = true /\
  exists k, 1 <= k /\ digits_at s (p + 5) k /\ is_word_at s (p + 5 + k) = false /\
            e = p + 5 + k.
Proof.
  unfold alt_text. destruct (is_prefix (lit "TEXT ") (skipn p s)) eqn:P; [|discriminate].
  unfold digits_then. intros H. apply try_lengths_some in H.
  destruct H as [m [Hm Hc]]. split; [reflexivity|].
  assert (Hd : digits_at s (p + 5) m) by (apply digits_at_run; lia).
  unfold end_boundary in Hc.
  rewrite (boundary_after_digits s (p + 5) m Hd ltac:(lia)) in Hc.
  destruct (is_word_at s (p + 5 + m)) eqn:W; simpl in Hc; [discriminate|].
  injection Hc as <-. exists m. repeat split; auto; lia.
Qed.

Lemma alt_texts_sound (s : pystr) (p e : nat) :
  alt_texts s p = Some e ->
  is_prefix (lit "TEXTS ") (skipn p s) = true /\
  exists k1 k2, 1 <= k1 /\ digits_at s (p + 6) k1 /\
    nth_error s (p + 6 + k1) = Some 45%Z /\
    1 <= k2 /\ digits_at s (p + 7 + k1) k2 /\
    is_word_at s (p + 7 + k1 + k2) = false /\ e = p + 7 + k1 + k2.
Proof.
  unfold alt_texts. destruct (is_prefix (lit "TEXTS ") (skipn p s)) eqn:P; [|discriminate].
  unfold digits_then at 1. intros H. apply try_lengths_some in H.
  destruct H as [k1 [Hk1 Hc]]. split; [reflexivity|]. cbv beta in Hc.
  destruct (is_prefix (lit "-") (skipn (p + 6 + k1) s)) eqn:D; [|discriminate].
  unfold digits_then in Hc. apply try_lengths_some in Hc.
  destruct Hc as [k2 [Hk2 Hc]].
  assert (Hd2 : digits_at s (p + 6 + k1 + 1) k2) by (apply digits_at_run; lia).
  unfold end_boundary in Hc.
  rewrite (boundary_after_digits _ _ _ Hd2 ltac:(lia)) in Hc.
  destruct (is_word_at s (p + 6 + k1 + 1 + k2)) eqn:W; simpl in Hc; [discriminate|].
  injection Hc as <-.
  rewrite lit_dash in D. apply is_prefix_head in D.
  exists k1, k2.
  replace (p + 7 + k1) with (p + 6 + k1 + 1) by lia.
  repeat split; auto; try lia.
  apply digits_at_run. lia.
Qed.

Lemma alt_text_complete (s : pystr) (p k : nat) :
  is_prefix (lit "TEXT ") (skipn p s) = true -> 1 <= k ->
  digits_at s (p + 5) k -> is_word_at s (p + 5 + k) = false ->
  alt_text s p = Some (p + 5 + k).
Proof.
  intros P Hk Hd Hw. unfold alt_text. rewrite P. unfold digits_then.
  rewrite (digit_run_exact s (p + 5) k Hd Hw).
  destruct k as [|k]; [lia|]. cbn [try_lengths]. unfold end_boundary.
  rewrite (boundary_after_digits s (p + 5) (S k) Hd Hk), Hw. reflexivity.
Qed.

Lemma alt_texts_complete (s : pystr) (p k1 k2 : nat) :
  is_prefix (lit "TEXTS ") (skipn p s) = true -> 1 <= k1 -> digits_at s (p + 6) k1 ->
  nth_error s (p + 6 + k1) = Some 45%Z -> 1 <= k2 -> digits_at s (p + 7 + k1) k2 ->
  is_word_at s (p + 7 + k1 + k2) = false ->
  alt_texts s p = Some (p + 7 + k1 + k2).
Proof.
  intros P Hk1 Hd1 Hdash Hk2 Hd2 Hw. unfold alt_texts. rewrite P.
  unfold digits_then at 1.
  assert (Hw1 : is_word_at s (p + 6 + k1) = false)
    by (unfold is_word_at; rewrite Hdash; apply dash_not_word).
  rewrite (digit_run_exact s (p + 6) k1 Hd1 Hw1).
  destruct k1 as [|k1]; [lia|]. cbn [try_lengths].
  assert (D : is_prefix (lit "-") (skipn (p + 6 + S k1) s) = true).
  { rewrite lit_dash, skipn_nth, Hdash. simpl. reflexivity. }
  rewrite D. unfold digits_then.
  replace (p + 6 + S k1 + 1) with (p + 7 + S k1) by lia.
  rewrite (digit_run_exact s (p + 7 + S k1) k2 Hd2 Hw).
  destruct k2 as [|k2]; [lia|]. cbn [try_lengths]. unfold end_boundary.
  rewrite (boundary_after_digits s (p + 7 + S k1) (S k2) Hd2 Hk2), Hw. reflexivity.
Qed.

Lemma marker_match_sound (s : pystr) (p e : nat) :
  marker_match_at s p = Some e -> whole_word_marker s p /\ p < e.
Proof.
  unfold marker_match_at. destruct (boundary s p) eqn:B; [|discriminate].
  destruct (alt_text s p) as [e1|] eqn:A.
  - intros H. injection H as <-. apply alt_text_sound in A.
    destruct A as [P [k [Hk [Hd [Hw ->]]]]].
    pose proof P as P0. rewrite lit_TEXT in P0. apply is_prefix_head in P0.
    rewrite (boundary_T s p P0) in B.
    split; [|lia]. split; [exact B|]. left. split; [exact P|].
    exists k. auto.
  - intros A2. apply alt_texts_sound in A2.
    destruct A2 as [P [k1 [k2 [Hk1 [Hd1 [Hdash [Hk2 [Hd2 [Hw ->]]]]]]]]].
    pose proof P as P0. rewrite lit_TEXTS in P0. apply is_prefix_head in P0.
    rewrite (boundary_T s p P0) in B.
    split; [|lia]. split; [exact B|]. right. split; [exact P|].
    exists k1, k2. auto 10.
Qed.

Lemma marker_match_complete (s : pystr) (p : nat) :
  whole_word_marker s p -> exists e, marker_match_at s p = Some e.
Proof.
  intros [Ws [[P [k [Hk [Hd Hw]]]] | [P [k1 [k2 [Hk1 [Hd1 [Hdash [Hk2 [Hd2 Hw]]]]]]]]]].
  - pose proof P as P0. rewrite lit_TEXT in P0. apply is_prefix_head in P0.
    unfold marker_match_at. rewrite (boundary_T s p P0), Ws.
    rewrite (alt_text_complete s p k P Hk Hd Hw). eauto.
  - pose proof P as P0. rewrite lit_TEXTS in P0. apply is_prefix_head in P0.
    unfold marker_match_at. rewrite (boundary_T s p P0), Ws.
    rewrite (alt_texts_complete s p k1 k2 P Hk1 Hd1 Hdash Hk2 Hd2 Hw).
    destruct (alt_text s p); eauto.
Qed.

Lemma digits_not_T (s : pystr) (j k q : nat) :
  digits_at s j k -> j <= q -> q < j + k -> nth_error s q = Some 84%Z -> False.
Proof.
  intros Hd H1 H2 Hq. destruct (Hd (q - j) ltac:(lia)) as [c [Hc Dc]].
  replace (j + (q - j)) with q in Hc by lia. rewrite Hq in Hc.
  injection Hc as <-. rewrite T_not_digit in Dc. discriminate.
Qed.

(** Inside a match, a ['T'] can only be the second ['T'] of ["TEXT"]. *)
Lemma marker_T_inside (s : pystr) (a e q : nat) :
  marker_match_at s a = Some e -> a < q -> q < e -> nth_error s q = Some 84%Z ->
  q = a + 3 /\ nth_error s (a + 2) = Some 88%Z.
Proof.
  intros Ha Haq Hqe Hq.
  unfold marker_match_at in Ha. destruct (boundary s a); [|discriminate].
  destruct (alt_text s a) as [e1|] eqn:A.
  - injection Ha as <-. apply alt_text_sound in A.
    destruct A as [P [k [Hk [Hd [Hw ->]]]]].
    rewrite lit_TEXT, is_prefix_nth in P. cbn [length] in P.
    assert (X : nth_error s (a + 2) = Some 88%Z) by (apply (P 2); lia).
    destruct (Nat.lt_ge_cases q (a + 5)) as [Hlt|Hge].
    + assert (q = a + 1 \/ q = a + 2 \/ q = a + 3 \/ q = a + 4) as Hc by lia.
      destruct Hc as [-> | [-> | [-> | ->] ] ].
      * rewrite (P 1 ltac:(lia)) in Hq. discriminate.
      * rewrite X in Hq. discriminate.
      * auto.
      * rewrite (P 4 ltac:(lia)) in Hq. discriminate.
    + exfalso. apply (digits_not_T s (a + 5) k q); auto; lia.
  - apply alt_texts_sound in Ha.
    destruct Ha as [P [k1 [k2 [Hk1 [Hd1 [Hdash [Hk2 [Hd2 [Hw ->]]]]]]]]].
    rewrite lit_TEXTS, is_prefix_nth in P. cbn [length] in P.
    assert (X : nth_error s (a + 2) = Some 88%Z) by (apply (P 2); lia).
    destruct (Nat.lt_ge_cases q (a + 6)) as [Hlt|Hge].
    + assert (q = a + 1 \/ q = a + 2 \/ q = a + 3 \/ q = a + 4 \/ q = a + 5)
        as Hc by lia.
      destruct Hc as [-> | [-> | [-> | [-> | ->] ] ] ].
      * rewrite (P 1 ltac:(lia)) in Hq. discriminate.
      * rewrite X in Hq. discriminate.
      * auto.
      * rewrite (P 4 ltac:(lia)) in Hq. discriminate.
      * rewrite (P 5 ltac:(lia)) in Hq. discriminate.
    + exfalso. destruct (Nat.lt_ge_cases q (a + 6 + k1)) as [H1|H1].
      * apply (digits_not_T s (a + 6) k1 q); auto.
      * destruct (Nat.eq_dec q (a + 6 + k1)) as [->|Hne].
        -- rewrite Hdash in Hq. discriminate.
        -- apply (digits_not_T s (a + 7 + k1) k2 q); auto; lia.
Qed.

Lemma marker_match_head (s : pystr) (q e : nat) :
  marker_match_at s q = Some e -> nth_error s q = Some 84%Z.
Proof.
  intros Hm. apply marker_match_sound in Hm.
  destruct Hm as [[_ [[P _]|[P _]]] _].
  - rewrite lit_TEXT in P. exact (is_prefix_head _ _ _ _ P).
  - rewrite lit_TEXTS in P. exact (is_prefix_head _ _ _ _ P).
Qed.

(** Two matches never overlap. *)
Lemma marker_no_overlap (s : pystr) (a e q : nat) :
  marker_match_at s a = Some e -> a < q -> q < e -> marker_match_at s q = None.
Proof.
  intros Ha Haq Hqe. destruct (marker_match_at s q) as [e'|] eqn:Hm; [|reflexivity].
  exfalso.
  destruct (marker_T_inside s a e q Ha Haq Hqe (marker_match_head s q e' Hm))
    as [-> X].
  apply marker_match_sound in Hm. destruct Hm as [[Ws _] _].
  replace (a + 3) with (S (a + 2)) in Ws by lia. cbn [word_start] in Ws.
  unfold is_word_at in Ws. rewrite X, X_word in Ws. discriminate.
Qed.

Lemma search_from_sound (s : pystr) (f i a e : nat) :
  search_from s f i = Some (a, e) ->
  marker_match_at s a = Some e /\ i <= a.
Proof.
  revert i; induction f as [|f IH]; intros i H; cbn [search_from] in H; [discriminate|].
  destruct (marker_match_at s i) as [e0|] eqn:M.
  - injection H as <- <-. split; [exact M | lia].
  - destruct (IH (S i) H) as [H1 H2]. split; [exact H1 | lia].
Qed.

Lemma search_from_complete (s : pystr) (f i p e : nat) :
  marker_match_at s p = Some e -> i <= p -> p < i + f ->
  exists a e', search_from s f i = Some (a, e') /\ a <= p.
Proof.
  revert i; induction f as [|f IH]; intros i Hp Hi Hf; [lia|].
  cbn [search_from]. destruct (marker_match_at s i) as [e0|] eqn:M.
  - exists i, e0. split; [reflexivity | exact Hi].
  - destruct (Nat.eq_dec i p) as [->|Hne]; [rewrite Hp in M; discriminate|].
    apply (IH (S i) Hp); lia.
Qed.

Lemma find_all_sound (s : pystr) (f i a e : nat) :
  In (a, e) (find_all s f i) -> marker_match_at s a = Some e.
Proof.
  revert i; induction f as [|f IH]; intros i H; cbn [find_all] in H; [contradiction|].
  destruct (search_from s (S (length s)) i) as [[a' e']|] eqn:Sr; [|contradiction].
  destruct H as [H|H].
  - injection H as <- <-. exact (proj1 (search_from_sound _ _ _ _ _ Sr)).
  - exact (IH _ H).
Qed.

Lemma find_all_complete (s : pystr) (f i p e : nat) :
  marker_match_at s p = Some e -> i <= p -> p - i < f -> p < length s ->
  In p (map fst (find_all s f i)).
Proof.
  revert i; induction f as [|f IH]; intros i Hp Hi Hf Hlen; [lia|].
  cbn [find_all].
  destruct (search_from_complete s (S (length s)) i p e Hp Hi ltac:(lia))
    as [a [e' [Sr Ha]]].
  rewrite Sr. destruct (search_from_sound _ _ _ _ _ Sr) as [Ma Hia].
  cbn [map fst]. destruct (Nat.eq_dec a p) as [->|Hne]; [left; reflexivity|].
  right. assert (Hae : a < e') by exact (proj2 (marker_match_sound _ _ _ Ma)).
  assert (Hep : e' <= p).
  { destruct (Nat.le_gt_cases e' p) as [H|H]; [exact H|].
    rewrite (marker_no_overlap s a e' p Ma ltac:(lia) H) in Hp. discriminate. }
  apply (IH e' Hp Hep); lia.
Qed.

End MarkerProofs.

#[global] Instance ascii_unicode_laws : @PyUnicodeLaws ascii_unicode.
Proof.
  split; try reflexivity.
  - intros c D. cbn in *. unfold ascii_isword. rewrite D. reflexivity.
  - intros c Hc. cbn in Hc.
    destruct Hc as [<- | [<- | [<- | [<- | [] ] ] ] ]; reflexivity.
  - intros c Hc. cbn in Hc.
    destruct Hc as [<- | [<- | [<- | [<- | [] ] ] ] ]; reflexivity.
Qed.

(** C6. In the split of the concatenated chapter text, position [p] is a
    split point exactly when a whole-word marker token starts there:
    ["TEXT"] then a space and digits, or ["TEXTS"] then a space, digits,
    a dash and digits, with no word character right before the token nor
    right after its last digit. So "TEXTUAL 12", "PRETEXT 3", "TEXTS 3"
    or "TEXT 12a" never create a split point, while a standalone
    "TEXT 12" or "TEXTS 3-5" always does. Stated for any character
    classes with the properties Python's [\w] and [\d] have. *)
Theorem marker_split_points_whole_words {U : PyUnicode} {L : @PyUnicodeLaws U}
        (s : pystr) (p : nat) :
  In p (split_points s) <-> whole_word_marker s p.
Proof.
  unfold split_points, marker_matches. split.
  - intros H. apply in_map_iff in H. destruct H as [[a e] [Ha Hin]].
    simpl in Ha. subst a.
    exact (proj1 (marker_match_sound s p e (find_all_sound _ _ _ _ _ Hin))).
  - intros W. destruct (marker_match_complete s p W) as [e He].
    assert (Hlen : p < length s).
    { apply nth_error_Some. rewrite (marker_match_head s p e He). discriminate. }
    apply (find_all_complete s _ 0 p e He); lia.
Qed.

Lemma marker_split_points_witness :
  (In 2 (split_points (lit "a TEXTS 3-5 b")) /\
   whole_word_marker (lit "a TEXTS 3-5 b") 2) /\
  ~ whole_word_marker (lit "TEXTUAL 12") 0 /\
  split_points (lit "TEXTUAL 12") = [].
Proof.
  assert (I2 : In 2 (split_points (lit "a TEXTS 3-5 b")))
    by (vm_compute; left; reflexivity).
  split; [split; [exact I2 | exact (proj1 (marker_split_points_whole_words _ _) I2)] |].
  split.
  - intros W. apply (marker_split_points_whole_words _ _) in W.
    vm_compute in W. exact W.
  - vm_compute. reflexivity.
Defined.

(** C1 (the code drops the verse bodies). On a chapter whose rows are a
    header, ["TEXT 1 <i>om namo</i> bhagavate"] and
    ["TEXT 2 dharmah projjhita"], [get_texts_from_chapter] returns only
    the two markers: [re.split] with a capturing group returns each
    marker as a piece of its own, and the body pieces that follow do not
    start with ["TEXT "], so the filter discards them. *)
Theorem get_texts_drops_verse_bodies :
  get_texts_from_chapter db_two_verses 1 1 = inr [lit "TEXT 1"; lit "TEXT 2"].
Proof. vm_compute. reflexivity. Qed.

Section RetrieverProofs.
Context {U : PyUnicode}.

Lemma scan_chapters_none (db : database) (key : pystr) (l : list chapter_set) :
  Forall (fun cs => py_in key (cs_title cs) = false) l ->
  scan_chapters db key l = inl (ValueError (key ++ lit " not found in SB.")).
Proof.
  induction l as [|cs l IH]; intros H; [reflexivity|].
  inversion H as [|x y Hcs Hl]; subst. cbn [scan_chapters]. rewrite Hcs. apply IH, Hl.
Qed.

Lemma scan_chapters_some (db : database) (key : pystr) (l : list chapter_set) :
  (exists cs, In cs l /\ py_in key (cs_title cs) = true) ->
  exists units, scan_chapters db key l = inr units.
Proof.
  induction l as [|cs l IH]; intros [c [Hin Hm]]; [contradiction|].
  cbn [scan_chapters]. destruct (py_in key (cs_title cs)) eqn:E; [eauto|].
  destruct Hin as [<-|Hin]; [congruence|]. apply IH. eauto.
Qed.

Lemma scan_chapters_error (db : database) (key : pystr) (l : list chapter_set) (e : exn) :
  scan_chapters db key l = inl e ->
  Forall (fun cs => py_in key (cs_title cs) = false) l /\
  e = ValueError (key ++ lit " not found in SB.").
Proof.
  induction l as [|cs l IH]; cbn [scan_chapters]; intros H.
  - injection H as <-. auto.
  - destruct (py_in key (cs_title cs)) eqn:E; [discriminate|].
    destruct (IH H) as [H1 H2]. auto.
Qed.

Lemma catalog_titles (db : database) (cs : chapter_set) :
  In cs (list_all_sb_chapters db) ->
  exists r, In r (db_contents db) /\ cs_title cs = c_title r.
Proof.
  unfold list_all_sb_chapters. intros H. apply in_flat_map in H.
  destruct H as [child [Hin H]].
  destruct (_ && _); [|contradiction].
  apply in_map_iff in H. destruct H as [parent [<- _]]. eauto.
Qed.

End RetrieverProofs.

(** C7. [get_texts_from_chapter] fails exactly when no title of the
    chapter catalog contains ["SB <canto>.<chapter>:"], and then with
    [ValueError] (ChapterNotFound); when some title contains it, it
    returns normally. In particular it fails whenever no node of the
    content tree has such a title (as for canto 13). *)
Theorem get_texts_not_found_iff {U : PyUnicode} (db : database) (canto chapter : Z) :
  let key := canto_chapter_key canto chapter in
  let chapters := list_all_sb_chapters db in
  ((exists e, get_texts_from_chapter db canto chapter = inl e) <->
   Forall (fun cs => py_in key (cs_title cs) = false) chapters) /\
  (forall e, get_texts_from_chapter db canto chapter = inl e ->
             e = ValueError (key ++ lit " not found in SB.")) /\
  ((exists cs, In cs chapters /\ py_in key (cs_title cs) = true) ->
   exists units, get_texts_from_chapter db canto chapter = inr units) /\
  (Forall (fun r => py_in key (c_title r) = false) (db_contents db) ->
   get_texts_from_chapter db canto chapter =
   inl (ValueError (key ++ lit " not found in SB."))).
Proof.
  intros key chapters. unfold get_texts_from_chapter. fold key. fold chapters.
  split; [split|split; [|split]].
  - intros [e He]. exact (proj1 (scan_chapters_error _ _ _ _ He)).
  - intros H. eexists. apply scan_chapters_none, H.
  - intros e He. exact (proj2 (scan_chapters_error _ _ _ _ He)).
  - apply scan_chapters_some.
  - intros H. apply scan_chapters_none. apply Forall_forall. intros cs Hcs.
    destruct (catalog_titles db cs Hcs) as [r [Hr ->]].
    rewrite Forall_forall in H. apply H, Hr.
Qed.

(** C10. When several catalog entries contain ["SB <canto>.<chapter>:"],
    [get_texts_from_chapter] uses the first one in query-result order:
    its result is the retrieval over that entry's record span, whatever
    entries follow. *)
Theorem get_texts_uses_first_match {U : PyUnicode} (db : database) (canto chapter : Z)
        (pre post : list chapter_set) (cs : chapter_set) :
  list_all_sb_chapters db = pre ++ cs :: post ->
  Forall (fun c => py_in (canto_chapter_key canto chapter) (cs_title c) = false) pre ->
  py_in (canto_chapter_key canto chapter) (cs_title cs) = true ->
  get_texts_from_chapter db canto chapter =
  inr (texts_of_span db (cs_first_text cs) (cs_last_text cs)).
Proof.
  intros Hcat Hpre Hcs. unfold get_texts_from_chapter. rewrite Hcat. clear Hcat.
  induction Hpre as [|c pre Hc Hpre IH]; cbn [app scan_chapters].
  - rewrite Hcs. reflexivity.
  - rewrite Hc. exact IH.
Qed.

Lemma get_texts_uses_first_match_witness :
  get_texts_from_chapter db_duplicate_titles 1 1 =
  inr (texts_of_span db_duplicate_titles 10 11) /\
  texts_of_span db_duplicate_titles 10 11 <> texts_of_span db_duplicate_titles 12 12.
Proof.
  split.
  - exact (get_texts_uses_first_match db_duplicate_titles 1 1 [] [second_copy] first_copy
             eq_refl (Forall_nil _) eq_refl).
  - vm_compute. discriminate.
Defined.

(** C8. [load_existing_names] never propagates an exception: every
    failure of its [try] body (missing file, unreadable file, bytes that
    are not UTF-8, text that is not JSON, JSON without the expected
    shape) yields the empty list. *)
Theorem load_existing_names_never_raises :
  (forall f, load_existing_names f =
             match load_existing_names_body f with
             | inr names => inr names
             | inl _ => inr []
             end) /\
  (forall f, exists names, load_existing_names f = inr names) /\
  load_existing_names Missing = inr [] /\
  load_existing_names Unreadable = inr [] /\
  load_existing_names NotUtf8 = inr [] /\
  load_existing_names NotJson = inr [].
Proof.
  assert (E : forall f, load_existing_names f =
                        match load_existing_names_body f with
                        | inr names => inr names
                        | inl _ => inr []
                        end).
  { intros f. unfold load_existing_names.
    destruct (load_existing_names_body f) as [e|names]; [destruct e|]; reflexivity. }
  split; [exact E|]. split.
  - intros f. rewrite E. destruct (load_existing_names_body f); eauto.
  - repeat split; reflexivity.
Qed.

(* ------------------------------------------------------------------ *)
(** ** Monad lemmas *)

Lemma bind_inr {A B} (m : M A) (k : A -> M B) (w : world) (b : B) (w' : world) :
  bind m k w = (inr b, w') -> exists a w1, m w = (inr a, w1) /\ k a w1 = (inr b, w').
Proof.
  unfold bind. destruct (m w) as [[e|a] w1]; intros H; [discriminate|eauto].
Qed.

Lemma pystr_eqb_refl (a : pystr) : pystr_eqb a a = true.
Proof.
  induction a as [|x a IH]; simpl; [reflexivity|]. rewrite Z.eqb_refl. exact IH.
Qed.

(** A run of [get_texts_from_chapter] returns what the database gives and
    leaves [sb_chapters.json] holding the catalog. *)
Lemma get_texts_io_eq {U : PyUnicode} (canto chapter : Z) (w : world) :
  get_texts_from_chapter_io canto chapter w
  = (get_texts_from_chapter (w_db w) canto chapter,
     snd (write_file sb_chapters_path (chapters_json (list_all_sb_chapters (w_db w))) w)).
Proof. reflexivity. Qed.

(** [sb_chapters.json] is not the store of any chapter. *)
Lemma sb_chapters_not_store (canto chapter : Z) :
  pystr_eqb (store_path canto chapter) sb_chapters_path = false /\
  pystr_eqb sb_chapters_path (store_path canto chapter) = false.
Proof. split; reflexivity. Qed.

Lemma load_exclusions_world (file : pystr) (w : world) :
  snd (load_exclusions file w) = w.
Proof.
  unfold load_exclusions, bind, lift, read_file, ret.
  destruct (truthy_str file);
    [destruct (load_existing_names (w_files w file)) as [e|[|n ns]]|]; reflexivity.
Qed.

Lemma store_append (canto chapter : Z) (recs : list name_record) (w : world)
      (l : list pyval) :
  prior_sequence (w_files w (store_path canto chapter)) = Some l ->
  extract_names_to_json canto chapter (Some recs) w =
  (inr tt,
   {| w_db := w_db w;
      w_files := fun p => if pystr_eqb p (store_path canto chapter)
                          then Json (PList (l ++ map model_dump recs))
                          else w_files w p;
      w_gen := w_gen w;
      w_trace := w_trace w |}).
Proof.
  intros H. unfold extract_names_to_json, bind, lift, read_file, write_file.
  destruct (w_files w (store_path canto chapter)) as [| | | | [] ] eqn:F;
    cbn in H; try discriminate; injection H as <-; reflexivity.
Qed.

Lemma extract_names_to_json_world (canto chapter : Z) (found : option (list name_record))
      (w : world) :
  w_trace (snd (extract_names_to_json canto chapter found w)) = w_trace w /\
  w_db (snd (extract_names_to_json canto chapter found w)) = w_db w /\
  w_gen (snd (extract_names_to_json canto chapter found w)) = w_gen w.
Proof.
  unfold extract_names_to_json, bind, lift, read_file, write_file.
  destruct found; [|auto].
  destruct (read_existing_data (w_files w (store_path canto chapter))) as [e|v];
    [auto|]. destruct (py_extend v (map model_dump l)); auto.
Qed.




(** The world after the two requests of one [extract_names] call. *)
Lemma extract_names_inr (src ref file : pystr) (w : world) (v : option (list name_record))
      (w' : world) :
  extract_names src ref file w = (inr v, w') ->
  exists ex r1 h r2,
    fst (load_exclusions file w) = inr ex /\
    w_gen w (w_trace w) (Round1 src ref ex) = inr r1 /\
    hd_error (gr_candidates r1) = Some h /\
    w_gen w (w_trace w ++ [Round1 src ref ex]) (Round2 src ref ex h) = inr r2 /\
    v = gr_parsed r2 /\
    w' = {| w_db := w_db w; w_files := w_files w; w_gen := w_gen w;
            w_trace := w_trace w ++ [Round1 src ref ex; Round2 src ref ex h] |}.
Proof.
  unfold extract_names. intros H.
  apply bind_inr in H. destruct H as [ex [w1 [H1 H]]].
  pose proof (load_exclusions_world file w) as Wl. rewrite H1 in Wl. simpl in Wl. subst w1.
  apply bind_inr in H. destruct H as [r1 [w2 [H2 H]]].
  unfold call_gen in H2. injection H2 as G1 <-.
  apply bind_inr in H. destruct H as [h [w3 [H3 H]]].
  unfold lift in H3. cbn [w_gen w_trace w_db w_files] in *.
  destruct (gr_candidates r1) as [|c cs] eqn:C; injection H3 as E <-; [discriminate|].
  subst c.
  apply bind_inr in H. destruct H as [r2 [w4 [H4 H]]].
  unfold call_gen in H4. injection H4 as G2 <-.
  unfold ret in H. injection H as <- <-. cbn [w_gen w_trace w_db w_files] in *.
  exists ex, r1, h, r2. rewrite C. rewrite H1.
  repeat split; auto. rewrite <- app_assoc. reflexivity.
Qed.

(** C4. With a service returning validated record sequences in both
    rounds, [extract_names] returns exactly round 2's parsed sequence;
    round 1's answer only enters as the replayed history of the round-2
    request (its first candidate), never in the returned value. *)
Theorem extract_names_returns_round2 (src ref file : pystr) (w : world)
        (r1 r2 : gen_response) (h : content) (rest : list content)
        (recs1 recs2 : list name_record) (ex : list pystr) :
  (forall t a b x, w_gen w t (Round1 a b x) = inr r1) ->
  (forall t a b x y, w_gen w t (Round2 a b x y) = inr r2) ->
  gr_candidates r1 = h :: rest -> gr_parsed r1 = Some recs1 ->
  gr_parsed r2 = Some recs2 ->
  fst (load_exclusions file w) = inr ex ->
  extract_names src ref file w =
  (inr (Some recs2),
   {| w_db := w_db w; w_files := w_files w; w_gen := w_gen w;
      w_trace := w_trace w ++ [Round1 src ref ex; Round2 src ref ex h] |}).
Proof.
  intros G1 G2 C1 P1 P2 Hex.
  unfold extract_names. unfold bind at 1.
  pose proof (load_exclusions_world file w) as Wl.
  destruct (load_exclusions file w) as [r w1]. simpl in Wl, Hex. subst r w1.
  unfold bind, call_gen, lift, ret. cbn [w_gen w_trace w_db w_files].
  rewrite G1, C1, G2, P2. rewrite <- app_assoc. reflexivity.
Qed.

Lemma extract_names_returns_round2_witness :
  extract_names (lit "TEXT 1 verse") (source_ref_of 1 1) (store_path 1 1)
    (world0 db_two_verses no_files
       (stub_gen [record_named "Krishna"] [record_named "Govinda"]))
  = (inr (Some [record_named "Govinda"]),
     {| w_db := db_two_verses; w_files := no_files;
        w_gen := stub_gen [record_named "Krishna"] [record_named "Govinda"];
        w_trace := [] ++ [Round1 (lit "TEXT 1 verse") (source_ref_of 1 1) [];
                          Round2 (lit "TEXT 1 verse") (source_ref_of 1 1) []
                                 (lit "round one")] |}).
Proof.
  exact (extract_names_returns_round2
           (lit "TEXT 1 verse") (source_ref_of 1 1) (store_path 1 1)
           (world0 db_two_verses no_files
              (stub_gen [record_named "Krishna"] [record_named "Govinda"]))
           {| gr_candidates := [lit "round one"];
              gr_parsed := Some [record_named "Krishna"] |}
           {| gr_candidates := [lit "round two"];
              gr_parsed := Some [record_named "Govinda"] |}
           (lit "round one") [] [record_named "Krishna"] [record_named "Govinda"] []
           (fun _ _ _ _ => eq_refl) (fun _ _ _ _ _ => eq_refl) eq_refl eq_refl eq_refl
           ltac:(vm_compute; reflexivity)).
Defined.

(* ------------------------------------------------------------------ *)
(** ** Batches of the pagination loop *)

Lemma firstn_min_length {A} (k : nat) (l : list A) :
  firstn (Nat.min k (length l)) l = firstn k l.
Proof.
  destruct (Nat.le_ge_cases k (length l)) as [Hk|Hk].
  - rewrite Nat.min_l by exact Hk. reflexivity.
  - rewrite Nat.min_r by exact Hk. rewrite firstn_all, firstn_all2 by exact Hk.
    reflexivity.
Qed.

Lemma firstn_add {A} (a b : nat) (l : list A) :
  firstn (a + b) l = firstn a l ++ firstn b (skipn a l).
Proof.
  revert l; induction a as [|a IH]; intros l; [reflexivity|].
  destruct l as [|x l]; simpl.
  - rewrite firstn_nil. reflexivity.
  - rewrite IH. reflexivity.
Qed.

Lemma batch_slice_eq (texts : list pystr) (i : nat) :
  batch_slice texts i
  = firstn (Nat.min 20 (length texts - 20 * i)) (skipn (20 * i) texts).
Proof.
  unfold batch_slice, py_slice. f_equal. lia.
Qed.

Lemma batch_slice_full (texts : list pystr) (i : nat) :
  batch_slice texts i = firstn 20 (skipn (20 * i) texts).
Proof.
  rewrite batch_slice_eq, <- length_skipn. apply firstn_min_length.
Qed.

Lemma concat_batches (texts : list pystr) (n i : nat) :
  concat (map (batch_slice texts) (seq i n)) = firstn (20 * n) (skipn (20 * i) texts).
Proof.
  revert i; induction n as [|n IH]; intros i; [reflexivity|].
  cbn [seq map concat]. rewrite IH, batch_slice_full.
  replace (20 * S n) with (20 + 20 * n) by lia.
  rewrite firstn_add, skipn_skipn. do 3 f_equal. lia.
Qed.

Lemma max_iter_bounds (texts : list pystr) :
  length texts <= 20 * max_iter_of texts /\ 20 * max_iter_of texts < length texts + 20.
Proof.
  unfold max_iter_of.
  pose proof (Nat.div_mod_eq (length texts + 19) 20) as D.
  pose proof (Nat.mod_upper_bound (length texts + 19) 20 ltac:(lia)) as B.
  lia.
Qed.

(** A successful batch: its two requests, the exclusions it sent, and
    the store after it. *)
Lemma run_batch_inr {U : PyUnicode} (canto chapter : Z) (texts : list pystr) (i : nat)
      (w w' : world) (u : unit) :
  run_batch canto chapter texts i w = (inr u, w') ->
  exists ex h r2 recs,
    fst (load_exclusions (store_path canto chapter) w) = inr ex /\
    w_gen w (w_trace w ++ [Round1 (py_join (lit " ") (batch_slice texts i))
                              (source_ref_of canto chapter) ex])
      (Round2 (py_join (lit " ") (batch_slice texts i)) (source_ref_of canto chapter) ex h)
    = inr r2 /\
    gr_parsed r2 = Some recs /\
    w_trace w' = w_trace w ++
      [Round1 (py_join (lit " ") (batch_slice texts i)) (source_ref_of canto chapter) ex;
       Round2 (py_join (lit " ") (batch_slice texts i)) (source_ref_of canto chapter) ex h] /\
    w_db w' = w_db w /\ w_gen w' = w_gen w /\
    (forall l, prior_sequence (w_files w (store_path canto chapter)) = Some l ->
     w_files w' (store_path canto chapter) = Json (PList (l ++ map model_dump recs))).
Proof.
  unfold run_batch. intros H.
  apply bind_inr in H. destruct H as [found [w1 [H1 H]]].
  apply extract_names_inr in H1.
  destruct H1 as [ex [r1 [h [r2 [Hex [_ [_ [G2 [-> ->]]]]]]]]].
  destruct (gr_parsed r2) as [recs|] eqn:P.
  2:{ unfold extract_names_to_json, bind, lift in H. discriminate. }
  pose proof (extract_names_to_json_world canto chapter (Some recs)
                {| w_db := w_db w; w_files := w_files w; w_gen := w_gen w;
                   w_trace := w_trace w ++
                     [Round1 (py_join (lit " ") (batch_slice texts i))
                        (source_ref_of canto chapter) ex;
                      Round2 (py_join (lit " ") (batch_slice texts i))
                        (source_ref_of canto chapter) ex h] |}) as Wj.
  rewrite H in Wj. cbn [snd w_trace w_db w_gen] in Wj. destruct Wj as [Wt [Wd Wg]].
  exists ex, h, r2, recs. repeat split; auto.
  intros l Hl. rewrite store_append with (l := l) in H by exact Hl.
  injection H as _ Hw. subst w'. cbn [w_files w_db w_gen w_trace].
  rewrite pystr_eqb_refl. reflexivity.
Qed.

Lemma round1_sources_app (t1 t2 : list gen_request) :
  round1_sources (t1 ++ t2) = round1_sources t1 ++ round1_sources t2.
Proof. unfold round1_sources. apply flat_map_app. Qed.

Lemma batch_loop_sources {U : PyUnicode} (canto chapter : Z) (texts : list pystr)
      (n i : nat) (w w' : world) :
  batch_loop canto chapter texts n i w = (inr tt, w') ->
  round1_sources (w_trace w')
  = round1_sources (w_trace w)
    ++ map (py_join (lit " ")) (map (batch_slice texts) (seq i n)).
Proof.
  revert i w; induction n as [|n IH]; intros i w H; cbn [batch_loop] in H.
  - unfold ret in H. injection H as <-. rewrite app_nil_r. reflexivity.
  - apply bind_inr in H. destruct H as [u [w1 [H1 H]]].
    apply IH in H. rewrite H.
    destruct (run_batch_inr canto chapter texts i w w1 u H1)
      as [ex [h [r2 [recs [_ [_ [_ [T _]]]]]]]].
    rewrite T, round1_sources_app, <- app_assoc. reflexivity.
Qed.

(** C5. For a chapter whose [N] verse units are retrieved and whose run
    completes, the loop runs [max_iter = ceil(N/20)] batches
    ([N <= 20 * max_iter < N + 20]); batch [i] is the contiguous slice
    from index [20 * i] of length [min(20, N - 20 * i)]; when [N > 0]
    the last batch has [N mod 20] units, or 20 when [N] is a multiple of
    20; the batches concatenate back to the verse units (none omitted,
    none repeated); and the batches are sent in order, each as the
    source text of one round-1 request. *)
Theorem pipeline_batches_cover {U : PyUnicode} (canto chapter : Z) (w w' : world)
        (texts : list pystr) :
  get_texts_from_chapter (w_db w) canto chapter = inr texts ->
  get_names_from_chapter canto chapter w = (inr tt, w') ->
  let N := length texts in
  let batches := map (batch_slice texts) (seq 0 (max_iter_of texts)) in
  N <= 20 * length batches /\ 20 * length batches < N + 20 /\
  (forall i, i < length batches ->
   nth i batches [] = firstn (Nat.min 20 (N - 20 * i)) (skipn (20 * i) texts)) /\
  (0 < N -> length (last batches []) = if N mod 20 =? 0 then 20 else N mod 20) /\
  concat batches = texts /\
  round1_sources (w_trace w')
  = round1_sources (w_trace w) ++ map (py_join (lit " ")) batches.
Proof.
  intros Ht Hrun N batches.
  assert (Lb : length batches = max_iter_of texts)
    by (subst batches; rewrite length_map, length_seq; reflexivity).
  pose proof (max_iter_bounds texts) as [B1 B2].
  fold N in B1, B2. rewrite Lb.
  split; [exact B1|]. split; [exact B2|]. split; [|split; [|split]].
  - intros i Hi. subst batches.
    rewrite nth_indep with (d' := batch_slice texts 0)
      by (rewrite length_map, length_seq; exact Hi).
    rewrite map_nth, seq_nth by exact Hi. apply batch_slice_eq.
  - intros HN. subst batches.
    destruct (max_iter_of texts) as [|m] eqn:Em; [lia|].
    rewrite seq_S, map_app. cbn [map].
    rewrite last_last, batch_slice_eq, length_firstn, length_skipn.
    fold N. simpl Nat.add.
    pose proof (Nat.div_mod_eq N 20) as D.
    pose proof (Nat.mod_upper_bound N 20 ltac:(lia)) as B.
    destruct (N mod 20 =? 0) eqn:E;
      [apply Nat.eqb_eq in E | apply Nat.eqb_neq in E]; lia.
  - subst batches. rewrite concat_batches. simpl skipn.
    apply firstn_all2. exact B1.
  - unfold get_names_from_chapter in Hrun.
    apply bind_inr in Hrun. destruct Hrun as [t [w1 [H1 H]]].
    rewrite get_texts_io_eq, Ht in H1. injection H1 as <- <-.
    rewrite (batch_loop_sources canto chapter texts _ 0 _ w' H). reflexivity.
Qed.

Lemma pipeline_batches_cover_witness :
  let texts := match get_texts_from_chapter db_21_verses 1 1 with
               | inr t => t | inl _ => [] end in
  let w' := snd (get_names_from_chapter 1 1 world_21_verses) in
  get_texts_from_chapter (w_db world_21_verses) 1 1 = inr texts /\
  get_names_from_chapter 1 1 world_21_verses = (inr tt, w') /\
  length texts = 21 /\
  (let batches := map (batch_slice texts) (seq 0 (max_iter_of texts)) in
   length texts <= 20 * length batches /\ 20 * length batches < length texts + 20 /\
   (forall i, i < length batches ->
    nth i batches [] = firstn (Nat.min 20 (length texts - 20 * i)) (skipn (20 * i) texts)) /\
   (0 < length texts ->
    length (last batches []) = if length texts mod 20 =? 0 then 20 else length texts mod 20) /\
   concat batches = texts /\
   round1_sources (w_trace w')
   = round1_sources (w_trace world_21_verses) ++ map (py_join (lit " ")) batches).
Proof.
  intros texts w'.
  assert (Ht : get_texts_from_chapter (w_db world_21_verses) 1 1 = inr texts)
    by (vm_compute; reflexivity).
  assert (Hr : get_names_from_chapter 1 1 world_21_verses = (inr tt, w'))
    by (vm_compute; reflexivity).
  split; [exact Ht|]. split; [exact Hr|]. split; [vm_compute; reflexivity|].
  exact (pipeline_batches_cover 1 1 world_21_verses w' texts Ht Hr).
Defined.










(** C3 (as stated, refuted). The driver's [except ValueError] also
    catches errors that are not [ChapterNotFound]: the
    [UnicodeDecodeError] raised while appending to a store file that is
    not UTF-8 (a subclass of [ValueError]) makes the driver move on to
    the next canto, and the run ends normally instead of aborting. *)
Lemma driver_catches_decode_error_counterexample :
  fst (get_names_from_chapter 1 1 world_corrupt_store) = inl UnicodeDecodeError /\
  (forall key, UnicodeDecodeError <> ValueError key) /\
  fst (get_names_from_sb 20 world_corrupt_store) = Finished.
Proof.
  split; [vm_compute; reflexivity|]. split; [intros key; discriminate|].
  vm_compute. reflexivity.
Qed.

(** C3 (amended). While [canto <= 12], the driver treats every
    [ValueError] raised by a chapter run (its subclasses included, such
    as the [UnicodeDecodeError] of a store that is not UTF-8, not only
    [ChapterNotFound]) as a canto rollover, moving on to chapter 1 of the
    next canto; any other error aborts the whole run. [ChapterNotFound]
    is one such [ValueError]. *)
Theorem driver_rolls_over_on_value_errors {U : PyUnicode} (fuel : nat) (canto chapter : Z)
        (w w' : world) (e : exn) :
  (canto <= 12)%Z ->
  get_names_from_chapter canto chapter w = (inl e, w') ->
  sb_loop (S fuel) canto chapter w
  = (if is_value_error e then sb_loop fuel (canto + 1) 1 w' else (Aborted e, w')) /\
  (forall db c ch e', get_texts_from_chapter db c ch = inl e' -> is_value_error e' = true).
Proof.
  intros Hc H. split.
  - cbn [sb_loop]. rewrite (proj2 (Z.leb_le canto 12) Hc), H. reflexivity.
  - intros db c ch e' E. unfold get_texts_from_chapter in E.
    destruct (scan_chapters_error db (canto_chapter_key c ch) (list_all_sb_chapters db) e' E)
      as [_ ->].
    reflexivity.
Qed.

Lemma driver_rolls_over_on_value_errors_witness :
  (1 <= 12)%Z /\
  get_names_from_chapter 1 1 world_corrupt_store
  = (inl UnicodeDecodeError, snd (get_names_from_chapter 1 1 world_corrupt_store)) /\
  sb_loop 20 1 1 world_corrupt_store
  = (if is_value_error UnicodeDecodeError
     then sb_loop 19 2 1 (snd (get_names_from_chapter 1 1 world_corrupt_store))
     else (Aborted UnicodeDecodeError, snd (get_names_from_chapter 1 1 world_corrupt_store))).
Proof.
  assert (Hc : (1 <= 12)%Z) by lia.
  assert (H : get_names_from_chapter 1 1 world_corrupt_store
              = (inl UnicodeDecodeError, snd (get_names_from_chapter 1 1 world_corrupt_store)))
    by (vm_compute; reflexivity).
  split; [exact Hc|]. split; [exact H|].
  exact (proj1 (driver_rolls_over_on_value_errors 19 1 1 world_corrupt_store _ _ Hc H)).
Defined.

(* ------------------------------------------------------------------ *)
(** ** [re.split] keeps every character *)

Lemma end_boundary_some {U : PyUnicode} (s : pystr) (x e : nat) :
  end_boundary s x = Some e -> e = x.
Proof.
  unfold end_boundary. destruct (boundary s x); intros H; [injection H; auto|discriminate].
Qed.

Lemma marker_match_lt {U : PyUnicode} (s : pystr) (a e : nat) :
  marker_match_at s a = Some e -> a < e.
Proof.
  assert (T : alt_text s a = Some e -> a < e).
  { unfold alt_text, digits_then. destruct (is_prefix (lit "TEXT ") (skipn a s));
      [|discriminate].
    intros H. apply try_lengths_some in H. destruct H as [m [Hm Hc]].
    apply end_boundary_some in Hc. lia. }
  assert (T2 : alt_texts s a = Some e -> a < e).
  { unfold alt_texts, digits_then. destruct (is_prefix (lit "TEXTS ") (skipn a s));
      [|discriminate].
    intros H. apply try_lengths_some in H. destruct H as [m [Hm Hc]].
    destruct (is_prefix (lit "-") (skipn (a + 6 + m) s)); [|discriminate].
    apply try_lengths_some in Hc. destruct Hc as [m' [Hm' Hc]].
    apply end_boundary_some in Hc. lia. }
  unfold marker_match_at. destruct (boundary s a); [|discriminate].
  destruct (alt_text s a) as [e1|] eqn:A.
  - intros H. injection H as <-. exact (T eq_refl).
  - exact T2.
Qed.

Lemma substr_skipn (s : pystr) (x y : nat) :
  x <= y -> substr s x y ++ skipn y s = skipn x s.
Proof.
  intros H. unfold substr.
  replace (skipn y s) with (skipn (y - x) (skipn x s))
    by (rewrite skipn_skipn; f_equal; lia).
  apply firstn_skipn.
Qed.

Lemma split_find_all {U : PyUnicode} (s : pystr) (f i last : nat) :
  last <= i -> concat (split_pieces s last (find_all s f i)) = skipn last s.
Proof.
  revert i last; induction f as [|f IH]; intros i last H; cbn [find_all].
  - cbn. apply app_nil_r.
  - destruct (search_from s (S (length s)) i) as [[a e]|] eqn:Sr.
    + destruct (search_from_sound _ _ _ _ _ Sr) as [Ma Hia].
      pose proof (marker_match_lt s a e Ma) as Hae.
      cbn [split_pieces concat]. rewrite app_assoc, (IH e e (le_n e)).
      rewrite <- app_assoc, (substr_skipn s a e) by lia.
      apply substr_skipn. lia.
    + cbn. apply app_nil_r.
Qed.

Lemma split_pieces_length (s : pystr) (last : nat) (ms : list (nat * nat)) :
  length (split_pieces s last ms) = 2 * length ms + 1.
Proof.
  revert last; induction ms as [|[a e] ms IH]; intros last; [reflexivity|].
  cbn [split_pieces length]. rewrite IH. lia.
Qed.

Lemma split_pieces_nth (s : pystr) (last : nat) (ms : list (nat * nat)) (k a e : nat) :
  nth_error ms k = Some (a, e) ->
  nth_error (split_pieces s last ms) (2 * k + 1) = Some (substr s a e).
Proof.
  revert last k; induction ms as [|[a' e'] ms IH]; intros last k H.
  - destruct k; discriminate.
  - destruct k as [|k].
    + injection H as <- <-. reflexivity.
    + cbn [split_pieces]. replace (2 * S k + 1) with (S (S (2 * k + 1))) by lia.
      cbn [nth_error]. exact (IH e' k H).
Qed.

(** [re.split(r'\b(TEXT \d+|TEXTS \d+-\d+)\b', s)] loses nothing: its
    pieces concatenate back to [s]; there are [2m + 1] of them for [m]
    markers; and the piece at odd position [2k + 1] is the [k]-th marker,
    a match of the pattern. *)
Theorem marker_split_round_trip {U : PyUnicode} (s : pystr) :
  concat (marker_split s) = s /\
  length (marker_split s) = 2 * length (marker_matches s) + 1 /\
  (forall k a e, nth_error (marker_matches s) k = Some (a, e) ->
   marker_match_at s a = Some e /\
   nth_error (marker_split s) (2 * k + 1) = Some (substr s a e)).
Proof.
  split; [|split].
  - unfold marker_split, marker_matches. apply (split_find_all s _ 0 0 (le_n 0)).
  - apply split_pieces_length.
  - intros k a e H. split.
    + apply nth_error_In in H. exact (find_all_sound s _ 0 a e H).
    + apply split_pieces_nth, H.
Qed.

(* ------------------------------------------------------------------ *)
(** ** [re.sub(r'<.*?>', ' ', text)] *)

Lemma lazy_close_length (r rest : pystr) :
  lazy_close r = Some rest -> length rest < length r.
Proof.
  induction r as [|c r IH]; cbn [lazy_close]; intros H; [discriminate|].
  destruct (c =? 62)%Z; [injection H as <-; simpl; lia|].
  destruct (c =? 10)%Z; [discriminate|]. simpl. specialize (IH H). lia.
Qed.

Lemma lazy_close_none (r : pystr) :
  lazy_close r = None ->
  forall j, nth_error r j = Some 62%Z ->
  exists k, k < j /\ nth_error r k = Some 10%Z.
Proof.
  induction r as [|c r IH]; intros H j Hj; [destruct j; discriminate|].
  cbn [lazy_close] in H.
  destruct (c =? 62)%Z eqn:E62; [discriminate|].
  destruct (c =? 10)%Z eqn:E10.
  - apply Z.eqb_eq in E10. subst c. destruct j as [|j].
    + discriminate.
    + exists 0. split; [lia|reflexivity].
  - destruct j as [|j].
    + simpl in Hj. injection Hj as ->. discriminate.
    + destruct (IH H j Hj) as [k [Hk Hn]]. exists (S k). split; [lia|exact Hn].
Qed.

Lemma lazy_close_sub (f : nat) (r : pystr) :
  lazy_close r = None -> lazy_close (sub_tags f r) = None.
Proof.
  revert r; induction f as [|f IH]; intros r H; [exact H|].
  destruct r as [|c r]; [reflexivity|].
  cbn [sub_tags]. cbn [lazy_close] in H.
  destruct (c =? 60)%Z eqn:E60.
  - apply Z.eqb_eq in E60. subst c. cbn in H.
    rewrite H. cbn [lazy_close]. cbn. apply IH, H.
  - cbn [lazy_close]. destruct (c =? 62)%Z; [discriminate|].
    destruct (c =? 10)%Z; [reflexivity|]. apply IH, H.
Qed.

Lemma sub_tags_no_tag (f : nat) (s : pystr) :
  length s <= f ->
  forall i, nth_error (sub_tags f s) i = Some 60%Z ->
  lazy_close (skipn (S i) (sub_tags f s)) = None.
Proof.
  revert s; induction f as [|f IH]; intros s Hs i Hi.
  - destruct s; [destruct i; discriminate | simpl in Hs; lia].
  - destruct s as [|c r]; [destruct i; discriminate|].
    simpl in Hs. cbn [sub_tags] in Hi |- *.
    destruct (c =? 60)%Z eqn:E60.
    + destruct (lazy_close r) as [rest|] eqn:Lc.
      * pose proof (lazy_close_length r rest Lc).
        destruct i as [|i]; [discriminate|].
        cbn [nth_error] in Hi. cbn [skipn]. apply IH; [lia|exact Hi].
      * destruct i as [|i].
        -- cbn [skipn]. apply lazy_close_sub, Lc.
        -- cbn [nth_error] in Hi. cbn [skipn]. apply IH; [lia|exact Hi].
    + destruct i as [|i].
      * cbn in Hi. injection Hi as ->. discriminate.
      * cbn [nth_error] in Hi. cbn [skipn]. apply IH; [lia|exact Hi].
Qed.

Lemma sub_tags_length (f : nat) (s : pystr) : length (sub_tags f s) <= length s.
Proof.
  revert s; induction f as [|f IH]; intros s; [reflexivity|].
  destruct s as [|c r]; [reflexivity|]. cbn [sub_tags].
  destruct (c =? 60)%Z.
  - destruct (lazy_close r) as [rest|] eqn:Lc.
    + pose proof (lazy_close_length r rest Lc). specialize (IH rest). simpl. lia.
    + specialize (IH r). simpl. lia.
  - specialize (IH r). simpl. lia.
Qed.

Lemma sub_tags_no_lt (f : nat) (s : pystr) : ~ In 60%Z s -> sub_tags f s = s.
Proof.
  revert s; induction f as [|f IH]; intros s H; [reflexivity|].
  destruct s as [|c r]; [reflexivity|]. cbn [sub_tags].
  destruct (c =? 60)%Z eqn:E.
  - apply Z.eqb_eq in E. subst c. exfalso. apply H. left. reflexivity.
  - f_equal. apply IH. intros Hr. apply H. right. exact Hr.
Qed.

(** The markup removal of [get_texts_from_chapter] leaves no complete
    tag: after every ['<'] of the result, a ['>'] only comes after a
    newline; a text without ['<'] is returned unchanged; and the result
    is never longer than the input. *)
Theorem strip_markup_no_tags (t : pystr) :
  (forall i j, nth_error (strip_markup t) i = Some 60%Z -> i < j ->
   nth_error (strip_markup t) j = Some 62%Z ->
   exists k, i < k < j /\ nth_error (strip_markup t) k = Some 10%Z) /\
  (~ In 60%Z t -> strip_markup t = t) /\
  length (strip_markup t) <= length t.
Proof.
  unfold strip_markup. split; [|split].
  - intros i j Hi Hij Hj.
    pose proof (sub_tags_no_tag (length t) t (le_n _) i Hi) as N.
    assert (Hj' : nth_error (skipn (S i) (sub_tags (length t) t)) (j - S i) = Some 62%Z)
      by (rewrite nth_error_skipn; replace (S i + (j - S i)) with j by lia; exact Hj).
    destruct (lazy_close_none _ N _ Hj') as [k [Hk Hn]].
    rewrite nth_error_skipn in Hn. exists (S i + k). split; [lia|exact Hn].
  - apply sub_tags_no_lt.
  - apply sub_tags_length.
Qed.

(* ------------------------------------------------------------------ *)
(** ** [str.strip] and the units [get_texts_from_chapter] returns *)

Section StripProofs.
Context {U : PyUnicode}.

Lemma lstrip_suffix (l : pystr) : exists p, l = p ++ lstrip l.
Proof.
  induction l as [|c r IH]; [exists []; reflexivity|].
  cbn [lstrip]. destruct (uc_isspace c).
  - destruct IH as [p Hp]. exists (c :: p). simpl. f_equal. exact Hp.
  - exists []. reflexivity.
Qed.

Lemma lstrip_head (l r : pystr) (c : Z) : lstrip l = c :: r -> uc_isspace c = false.
Proof.
  induction l as [|d l IH]; cbn [lstrip]; intros H; [discriminate|].
  destruct (uc_isspace d) eqn:D; [exact (IH H)|]. injection H as <- _. exact D.
Qed.

Lemma lstrip_keep (l : pystr) :
  (forall c r, l = c :: r -> uc_isspace c = false) -> lstrip l = l.
Proof.
  destruct l as [|c r]; intros H; [reflexivity|]. cbn [lstrip].
  rewrite (H c r eq_refl). reflexivity.
Qed.

Lemma lstrip_idem (l : pystr) : lstrip (lstrip l) = lstrip l.
Proof.
  apply lstrip_keep. intros c r H. exact (lstrip_head l r c H).
Qed.

(** [s.strip().strip() == s.strip()] *)
Lemma py_strip_idem (x : pystr) : py_strip (py_strip x) = py_strip x.
Proof.
  unfold py_strip.
  set (a := lstrip x). set (b := lstrip (rev a)).
  assert (K : lstrip (rev b) = rev b).
  { apply lstrip_keep. intros c r Hb.
    destruct (lstrip_suffix (rev a)) as [p Hp]. fold b in Hp.
    assert (Ha : a = rev b ++ rev p)
      by (rewrite <- rev_app_distr, <- Hp, rev_involutive; reflexivity).
    rewrite Hb in Ha. exact (lstrip_head x (r ++ rev p) c Ha). }
  rewrite K, rev_involutive. unfold b at 1. rewrite lstrip_idem. reflexivity.
Qed.

End StripProofs.

Lemma texts_of_span_units {U : PyUnicode} (db : database) (first last : Z) :
  Forall (fun u => py_startswith_any u [lit "TEXT "; lit "TEXTS "] = true /\ py_strip u = u)
         (texts_of_span db first last).
Proof.
  unfold texts_of_span. apply Forall_forall. intros u Hu.
  apply in_map_iff in Hu. destruct Hu as [piece [<- Hp]].
  apply filter_In in Hp. destruct Hp as [_ Hp].
  split; [exact Hp | apply py_strip_idem].
Qed.

(** Every unit [get_texts_from_chapter] returns starts with ["TEXT "] or
    ["TEXTS "] and has no leading or trailing whitespace ([u.strip()]
    is [u]). *)
Theorem get_texts_units_trimmed {U : PyUnicode} (db : database) (canto chapter : Z)
        (units : list pystr) :
  get_texts_from_chapter db canto chapter = inr units ->
  Forall (fun u => py_startswith_any u [lit "TEXT "; lit "TEXTS "] = true /\ py_strip u = u)
         units.
Proof.
  unfold get_texts_from_chapter.
  induction (list_all_sb_chapters db) as [|cs l IH]; cbn [scan_chapters]; intros H;
    [discriminate|].
  destruct (py_in (canto_chapter_key canto chapter) (cs_title cs)).
  - injection H as <-. apply texts_of_span_units.
  - exact (IH H).
Qed.

Lemma get_texts_units_trimmed_witness :
  get_texts_from_chapter db_two_verses 1 1 = inr [lit "TEXT 1"; lit "TEXT 2"] /\
  Forall (fun u => py_startswith_any u [lit "TEXT "; lit "TEXTS "] = true /\ py_strip u = u)
         [lit "TEXT 1"; lit "TEXT 2"].
Proof.
  assert (H : get_texts_from_chapter db_two_verses 1 1 = inr [lit "TEXT 1"; lit "TEXT 2"])
    by (vm_compute; reflexivity).
  split; [exact H|]. exact (get_texts_units_trimmed db_two_verses 1 1 _ H).
Defined.

(* ------------------------------------------------------------------ *)
(** ** [str(n)] is injective: distinct chapters, distinct files and keys *)

Lemma parse_digits_snoc (l : pystr) (d : Z) :
  parse_digits (l ++ [d]) = (10 * parse_digits l + (d - 48))%Z.
Proof. unfold parse_digits. rewrite fold_left_app. reflexivity. Qed.

Lemma pos_digits_spec (f : nat) (n : Z) (acc : pystr) :
  f <> O -> (0 <= n < 10 ^ Z.of_nat f)%Z ->
  exists l, pos_digits f n acc = l ++ acc /\ l <> [] /\
            Forall (fun c => 48 <= c <= 57)%Z l /\ parse_digits l = n.
Proof.
  revert n acc; induction f as [|f IH]; intros n acc Hf Hn.
  - contradiction.
  - cbn [pos_digits].
    pose proof (Z.mod_pos_bound n 10 ltac:(lia)) as Bm.
    destruct (n <? 10)%Z eqn:E.
    + apply Z.ltb_lt in E. exists [(48 + n mod 10)%Z].
      split; [reflexivity|]. split; [discriminate|].
      rewrite Z.mod_small by lia. split.
      * constructor; [lia|constructor].
      * unfold parse_digits. cbn [fold_left]. lia.
    + apply Z.ltb_ge in E.
      assert (Hq : (0 <= n / 10 < 10 ^ Z.of_nat f)%Z).
      { split; [apply Z.div_pos; lia|].
        apply Z.div_lt_upper_bound; [lia|].
        rewrite Nat2Z.inj_succ, Z.pow_succ_r in Hn by lia. lia. }
      assert (Hf' : f <> O).
      { intros ->. simpl in Hq. pose proof (Z.div_mod n 10 ltac:(lia)). lia. }
      destruct (IH (n / 10)%Z ((48 + n mod 10)%Z :: acc) Hf' Hq)
        as [l [Hl [Hne [Hd Hp]]]].
      exists (l ++ [(48 + n mod 10)%Z]). rewrite Hl, <- app_assoc. split; [reflexivity|].
      split; [destruct l; [contradiction|discriminate]|]. split.
      * apply Forall_app. split; [exact Hd|]. constructor; [lia|constructor].
      * rewrite parse_digits_snoc, Hp. pose proof (Z.div_mod n 10 ltac:(lia)). lia.
Qed.

Lemma py_str_int_nonneg (n : Z) :
  (0 <= n)%Z ->
  exists l, pos_digits (S (Z.to_nat (Z.log2 n))) n [] = l /\ l <> [] /\
            Forall (fun c => 48 <= c <= 57)%Z l /\ parse_digits l = n.
Proof.
  intros Hn.
  destruct (pos_digits_spec (S (Z.to_nat (Z.log2 n))) n [])
    as [l [Hl Hrest]].
  - discriminate.
  - split; [exact Hn|].
    rewrite Nat2Z.inj_succ, Z2Nat.id by apply Z.log2_nonneg.
    destruct (Z.eq_dec n 0) as [->|Hnz]; [simpl; lia|].
    destruct (Z.log2_spec n ltac:(lia)) as [_ H2].
    apply Z.lt_le_trans with (2 ^ Z.succ (Z.log2 n))%Z; [exact H2|].
    apply Z.pow_le_mono_l. lia.
  - exists l. rewrite app_nil_r in Hl. auto.
Qed.

Lemma py_str_int_chars (n : Z) :
  Forall (fun c => c = 45%Z \/ (48 <= c <= 57)%Z) (py_str_int n) /\ py_str_int n <> [].
Proof.
  unfold py_str_int. destruct (n <? 0)%Z eqn:E.
  - apply Z.ltb_lt in E.
    destruct (py_str_int_nonneg (- n) ltac:(lia)) as [l [-> [_ [Hd _]]]].
    split; [|discriminate]. constructor; [left; reflexivity|].
    eapply Forall_impl; [|exact Hd]. intros c Hc; right; exact Hc.
  - apply Z.ltb_ge in E.
    destruct (py_str_int_nonneg n E) as [l [-> [Hne [Hd _]]]].
    split; [|exact Hne]. eapply Forall_impl; [|exact Hd]. intros c Hc; right; exact Hc.
Qed.

Lemma py_int_py_str_int (n : Z) : py_int (py_str_int n) = n.
Proof.
  unfold py_str_int. destruct (n <? 0)%Z eqn:E.
  - apply Z.ltb_lt in E.
    destruct (py_str_int_nonneg (- n) ltac:(lia)) as [l [-> [_ [_ Hp]]]].
    cbn [py_int]. rewrite Z.eqb_refl, Hp. lia.
  - apply Z.ltb_ge in E.
    destruct (py_str_int_nonneg n E) as [l [-> [Hne [Hd Hp]]]].
    destruct l as [|c r]; [contradiction|]. cbn [py_int].
    inversion Hd as [|? ? Hc _]; subst.
    destruct (c =? 45)%Z eqn:C; [apply Z.eqb_eq in C; lia|]. reflexivity.
Qed.

Lemma py_str_int_inj (n m : Z) : py_str_int n = py_str_int m -> n = m.
Proof.
  intros H. rewrite <- (py_int_py_str_int n), <- (py_int_py_str_int m), H. reflexivity.
Qed.

Lemma app_sep_inv (c : Z) (a a' x y : pystr) :
  ~ In c a -> ~ In c a' -> a ++ c :: x = a' ++ c :: y -> a = a' /\ x = y.
Proof.
  revert a'; induction a as [|d a IH]; intros a' Ha Ha' H; destruct a' as [|d' a'].
  - injection H as H. auto.
  - injection H as <- _. exfalso. apply Ha'. left. reflexivity.
  - injection H as -> _. exfalso. apply Ha. left. reflexivity.
  - injection H as <- H.
    destruct (IH a' (fun h => Ha (or_intror h)) (fun h => Ha' (or_intror h)) H) as [-> ->].
    auto.
Qed.

Lemma py_str_int_not_in (n c : Z) :
  c <> 45%Z -> (c < 48 \/ 57 < c)%Z -> ~ In c (py_str_int n).
Proof.
  intros H1 H2 Hin. destruct (py_str_int_chars n) as [Hd _].
  rewrite Forall_forall in Hd. destruct (Hd c Hin); lia.
Qed.

(** Distinct (canto, chapter) pairs get distinct store files
    [sb_canto{canto}_chapter{chapter}_names.json] and distinct lookup
    keys [SB {canto}.{chapter}:], since [str] on integers is injective
    ([int(str(n)) == n]). *)
Theorem store_path_key_injective (canto chapter canto' chapter' : Z) :
  py_int (py_str_int canto) = canto /\
  (store_path canto chapter = store_path canto' chapter' ->
   canto = canto' /\ chapter = chapter') /\
  (canto_chapter_key canto chapter = canto_chapter_key canto' chapter' ->
   canto = canto' /\ chapter = chapter').
Proof.
  split; [apply py_int_py_str_int|]. split.
  - unfold store_path. intros H. apply app_inv_head in H.
    change (lit "_chapter") with (95%Z :: lit "chapter") in H.
    apply app_sep_inv in H;
      [|apply py_str_int_not_in; lia | apply py_str_int_not_in; lia].
    destruct H as [H1 H]. apply app_inv_head in H.
    change (lit "_names.json") with (95%Z :: lit "names.json") in H.
    apply app_sep_inv in H;
      [|apply py_str_int_not_in; lia | apply py_str_int_not_in; lia].
    destruct H as [H2 _]. split; apply py_str_int_inj; assumption.
  - unfold canto_chapter_key. intros H. apply app_inv_head in H.
    change (lit ".") with [46%Z] in H. cbn [app] in H.
    apply app_sep_inv in H;
      [|apply py_str_int_not_in; lia | apply py_str_int_not_in; lia].
    destruct H as [H1 H].
    change (lit ":") with [58%Z] in H.
    apply app_sep_inv in H;
      [|apply py_str_int_not_in; lia | apply py_str_int_not_in; lia].
    destruct H as [H2 _]. split; apply py_str_int_inj; assumption.
Qed.

(* ------------------------------------------------------------------ *)
(** ** [load_existing_names] and the store round trip *)

Lemma load_existing_names_error (f : file_state) (e : exn) :
  load_existing_names_body f = inl e -> load_existing_names f = inr [].
Proof.
  unfold load_existing_names. intros ->. destruct e; reflexivity.
Qed.

Lemma map_exn_fail {A B} (g : A -> exn + B) (l : list A) (x : A) (e : exn) :
  In x l -> g x = inl e -> exists e', map_exn g l = inl e'.
Proof.
  induction l as [|y l IH]; intros Hx Hg; [contradiction|].
  cbn [map_exn]. destruct (g y) as [e1|b] eqn:G; [eauto|].
  destruct Hx as [->|Hx]; [congruence|].
  destruct (IH Hx Hg) as [e' ->]. eauto.
Qed.

Lemma map_exn_forall2 {A B} (g : A -> exn + B) (l : list A) (r : list B) :
  Forall2 (fun x y => g x = inr y) l r -> map_exn g l = inr r.
Proof.
  induction 1 as [|x y l r Hxy _ IH]; [reflexivity|].
  cbn [map_exn]. rewrite Hxy, IH. reflexivity.
Qed.

(** How [load_existing_names] reads a decoded store: a JSON array whose
    items all have a ["name"] key gives those values, in order and with
    duplicates; a single item without that key (or not an object) makes
    it return no names at all; and a decoded value that is not an array
    (object, string, number, boolean, null) gives no names either. *)
Theorem load_existing_names_decoded :
  (forall items names,
     Forall2 (fun item n => getitem_name item = inr n) items names ->
     load_existing_names (Json (PList items)) = inr names) /\
  (forall items item e,
     In item items -> getitem_name item = inl e ->
     load_existing_names (Json (PList items)) = inr []) /\
  (forall v, (forall l, v <> PList l) -> load_existing_names (Json v) = inr []).
Proof.
  split; [|split].
  - intros items names H. unfold load_existing_names, load_existing_names_body.
    cbn [read_json py_iter]. rewrite (map_exn_forall2 _ _ _ H). reflexivity.
  - intros items item e Hin He.
    destruct (map_exn_fail getitem_name items item e Hin He) as [e' E].
    apply (load_existing_names_error _ e').
    unfold load_existing_names_body. cbn [read_json py_iter]. exact E.
  - intros v Hv. destruct v as [| | | s | l | d].
    + apply (load_existing_names_error _ TypeError). reflexivity.
    + apply (load_existing_names_error _ TypeError). reflexivity.
    + apply (load_existing_names_error _ TypeError). reflexivity.
    + destruct s as [|c s]; [reflexivity|].
      apply (load_existing_names_error _ TypeError). reflexivity.
    + exfalso. exact (Hv l eq_refl).
    + destruct d as [|[k v] d]; [reflexivity|].
      apply (load_existing_names_error _ TypeError). reflexivity.
Qed.

Lemma getitem_name_dump (r : name_record) :
  getitem_name (model_dump r) = inr (PStr (nr_name r)).
Proof. reflexivity. Qed.




(* ------------------------------------------------------------------ *)
(** ** Errors of [extract_names] *)

Lemma py_str_list_type_error (l : list pyval) (v : pyval) :
  In v l -> (forall s, v <> PStr s) -> py_str_list l = inl TypeError.
Proof.
  unfold py_str_list. induction l as [|x l IH]; intros Hv Hs; [contradiction|].
  cbn [map_exn]. destruct x as [| | |s| |]; try reflexivity.
  destruct Hv as [<-|Hv]; [exfalso; exact (Hs s eq_refl)|].
  rewrite (IH Hv Hs). reflexivity.
Qed.

(** When the store yields a name that is not a string, [', '.join]
    raises [TypeError] inside [extract_names] before any request is
    sent: the call fails and the world is unchanged. *)
Theorem extract_names_non_string_name (src ref file : pystr) (w : world)
        (names : list pyval) (v : pyval) :
  truthy_str file = true ->
  load_existing_names (w_files w file) = inr names ->
  In v names -> (forall s, v <> PStr s) ->
  extract_names src ref file w = (inl TypeError, w).
Proof.
  intros Hf Hl Hv Hs. unfold extract_names, load_exclusions.
  unfold bind at 1 2. unfold read_file, lift, ret. rewrite Hf. cbn [fst snd].
  unfold bind. rewrite Hl.
  destruct names as [|n ns]; [contradiction|].
  rewrite (py_str_list_type_error _ v Hv Hs). reflexivity.
Qed.

Lemma extract_names_non_string_name_witness :
  truthy_str (store_path 1 1) = true /\
  load_existing_names
    (w_files (world0 db_two_verses
                (fun _ => Json (PList [PDict [(lit "name", PNum 5)]])) (stub_gen [] []))
             (store_path 1 1)) = inr [PNum 5] /\
  extract_names (lit "TEXT 1") (source_ref_of 1 1) (store_path 1 1)
    (world0 db_two_verses (fun _ => Json (PList [PDict [(lit "name", PNum 5)]]))
       (stub_gen [] []))
  = (inl TypeError,
     world0 db_two_verses (fun _ => Json (PList [PDict [(lit "name", PNum 5)]]))
       (stub_gen [] [])).
Proof.
  assert (T : truthy_str (store_path 1 1) = true) by reflexivity.
  assert (Lx : load_existing_names
                 (w_files (world0 db_two_verses
                             (fun _ => Json (PList [PDict [(lit "name", PNum 5)]]))
                             (stub_gen [] []))
                          (store_path 1 1)) = inr [PNum 5]) by reflexivity.
  split; [exact T|]. split; [exact Lx|].
  exact (extract_names_non_string_name _ _ _ _ [PNum 5] (PNum 5) T Lx
           (or_introl eq_refl) (fun s H => ltac:(discriminate H))).
Defined.

(** Round 1 of [extract_names]: an error of the service propagates
    after the request is recorded, and an answer with no candidate
    raises [IndexError] ([candidates[0]]); in both cases the round-2
    request is never sent. *)
Theorem extract_names_round1_errors (src ref file : pystr) (w : world) (ex : list pystr) :
  fst (load_exclusions file w) = inr ex ->
  (forall e, w_gen w (w_trace w) (Round1 src ref ex) = inl e ->
   extract_names src ref file w =
   (inl e, {| w_db := w_db w; w_files := w_files w; w_gen := w_gen w;
              w_trace := w_trace w ++ [Round1 src ref ex] |})) /\
  (forall r1, w_gen w (w_trace w) (Round1 src ref ex) = inr r1 ->
   gr_candidates r1 = [] ->
   extract_names src ref file w =
   (inl IndexError, {| w_db := w_db w; w_files := w_files w; w_gen := w_gen w;
                       w_trace := w_trace w ++ [Round1 src ref ex] |})).
Proof.
  intros Hex.
  pose proof (load_exclusions_world file w) as Wl.
  assert (E : load_exclusions file w = (inr ex, w))
    by (destruct (load_exclusions file w) as [r w1]; simpl in Wl, Hex; subst; reflexivity).
  split.
  - intros e G. unfold extract_names. unfold bind at 1. rewrite E.
    unfold bind, call_gen. cbn [w_gen w_trace]. rewrite G. reflexivity.
  - intros r1 G C. unfold extract_names. unfold bind at 1. rewrite E.
    unfold bind, call_gen, lift. cbn [w_gen w_trace]. rewrite G, C. reflexivity.
Qed.

Lemma extract_names_round1_errors_witness :
  fst (load_exclusions (store_path 1 1) (world0 db_two_verses no_files failing_gen))
  = inr [] /\
  extract_names (lit "TEXT 1") (source_ref_of 1 1) (store_path 1 1)
    (world0 db_two_verses no_files failing_gen)
  = (inl APIError, {| w_db := db_two_verses; w_files := no_files; w_gen := failing_gen;
                      w_trace := [] ++ [Round1 (lit "TEXT 1") (source_ref_of 1 1) []] |}).
Proof.
  assert (Hex : fst (load_exclusions (store_path 1 1)
                       (world0 db_two_verses no_files failing_gen)) = inr [])
    by (vm_compute; reflexivity).
  split; [exact Hex|].
  exact (proj1 (extract_names_round1_errors (lit "TEXT 1") (source_ref_of 1 1)
                  (store_path 1 1) (world0 db_two_verses no_files failing_gen) [] Hex)
           APIError eq_refl).
Defined.

(* ------------------------------------------------------------------ *)
(** ** What a chapter run may change *)

Lemma extract_names_frame (src ref file : pystr) (w : world) :
  w_files (snd (extract_names src ref file w)) = w_files w /\
  w_db (snd (extract_names src ref file w)) = w_db w /\
  w_gen (snd (extract_names src ref file w)) = w_gen w.
Proof.
  pose proof (load_exclusions_world file w) as Wl.
  unfold extract_names, bind, call_gen, lift, ret.
  destruct (load_exclusions file w) as [[e|ex] w1]; simpl in Wl; subst w1;
    [cbn [snd]; auto|].
  cbn [w_gen w_trace w_files w_db].
  destruct (w_gen w (w_trace w) (Round1 src ref ex)) as [e|r1]; [cbn [snd]; auto|].
  destruct (gr_candidates r1) as [|h rest]; [cbn [snd]; auto|].
  destruct (w_gen w (w_trace w ++ [Round1 src ref ex]) (Round2 src ref ex h));
    cbn [snd]; auto.
Qed.

Lemma extract_names_to_json_files (canto chapter : Z) (found : option (list name_record))
      (w : world) :
  (forall p, pystr_eqb p (store_path canto chapter) = false ->
   w_files (snd (extract_names_to_json canto chapter found w)) p = w_files w p) /\
  (forall e, fst (extract_names_to_json canto chapter found w) = inl e ->
   w_files (snd (extract_names_to_json canto chapter found w)) = w_files w).
Proof.
  unfold extract_names_to_json, bind, lift, read_file, write_file.
  destruct found as [l|]; [|auto].
  destruct (read_existing_data (w_files w (store_path canto chapter))) as [e|v];
    [auto|].
  destruct (py_extend v (map model_dump l)) as [e|v']; [auto|].
  split.
  - intros p Hp. cbn [snd w_files]. rewrite Hp. reflexivity.
  - intros e H. discriminate.
Qed.

Lemma run_batch_frame {U : PyUnicode} (canto chapter : Z) (texts : list pystr) (i : nat)
      (w : world) :
  (forall p, pystr_eqb p (store_path canto chapter) = false ->
   w_files (snd (run_batch canto chapter texts i w)) p = w_files w p) /\
  w_db (snd (run_batch canto chapter texts i w)) = w_db w /\
  w_gen (snd (run_batch canto chapter texts i w)) = w_gen w /\
  (forall e, fst (run_batch canto chapter texts i w) = inl e ->
   w_files (snd (run_batch canto chapter texts i w)) = w_files w).
Proof.
  unfold run_batch, bind.
  set (src := py_join (lit " ") (batch_slice texts i)).
  pose proof (extract_names_frame src (source_ref_of canto chapter)
                (store_path canto chapter) w) as [F [D G]].
  destruct (extract_names src (source_ref_of canto chapter) (store_path canto chapter) w)
    as [[e|found] w1]; cbn [snd fst] in F, D, G |- *.
  - split; [intros p _; rewrite F; reflexivity|]. auto.
  - destruct (extract_names_to_json_files canto chapter found w1) as [J1 J2].
    destruct (extract_names_to_json_world canto chapter found w1) as [_ [J3 J4]].
    split; [intros p Hp; rewrite J1, F by exact Hp; reflexivity|].
    split; [rewrite J3; exact D|]. split; [rewrite J4; exact G|].
    intros e He. rewrite (J2 e He). exact F.
Qed.

Lemma batch_loop_frame {U : PyUnicode} (canto chapter : Z) (texts : list pystr)
      (n i : nat) (w : world) :
  (forall p, pystr_eqb p (store_path canto chapter) = false ->
   w_files (snd (batch_loop canto chapter texts n i w)) p = w_files w p) /\
  w_db (snd (batch_loop canto chapter texts n i w)) = w_db w /\
  w_gen (snd (batch_loop canto chapter texts n i w)) = w_gen w.
Proof.
  revert i w; induction n as [|n IH]; intros i w; cbn [batch_loop].
  - unfold ret. cbn [snd]. auto.
  - unfold bind.
    destruct (run_batch_frame canto chapter texts i w) as [F [D [G _]]].
    destruct (run_batch canto chapter texts i w) as [[e|u] w1];
      cbn [snd] in F, D, G |- *; [auto|].
    destruct (IH (S i) w1) as [F' [D' G']].
    split; [intros p Hp; rewrite F', F by exact Hp; reflexivity|].
    split; [rewrite D'; exact D | rewrite G'; exact G].
Qed.

(** A chapter run, whether it completes or raises, writes no file other
    than [sb_chapters.json], which ends up holding the dump of the chapter
    catalog, and the chapter's own store; it leaves the database and the
    service as they were. *)
Theorem chapter_run_frame {U : PyUnicode} (canto chapter : Z) (w : world) :
  (forall p, pystr_eqb p (store_path canto chapter) = false ->
   pystr_eqb p sb_chapters_path = false ->
   w_files (snd (get_names_from_chapter canto chapter w)) p = w_files w p) /\
  w_files (snd (get_names_from_chapter canto chapter w)) sb_chapters_path
  = Json (chapters_json (list_all_sb_chapters (w_db w))) /\
  w_db (snd (get_names_from_chapter canto chapter w)) = w_db w /\
  w_gen (snd (get_names_from_chapter canto chapter w)) = w_gen w.
Proof.
  unfold get_names_from_chapter, bind. rewrite get_texts_io_eq.
  destruct (sb_chapters_not_store canto chapter) as [_ Ns].
  destruct (get_texts_from_chapter (w_db w) canto chapter) as [e|texts];
    cbv beta iota.
  - cbn [snd w_files w_db w_gen write_file]. rewrite pystr_eqb_refl.
    split; [intros p _ Hq; rewrite Hq; reflexivity|]. auto.
  - destruct (batch_loop_frame canto chapter texts (max_iter_of texts) 0
                (snd (write_file sb_chapters_path
                        (chapters_json (list_all_sb_chapters (w_db w))) w)))
      as [F [D G]].
    rewrite D, G, (F sb_chapters_path Ns).
    split; [intros p Hp Hq; rewrite (F p Hp)|].
    + cbn [snd w_files write_file]. rewrite Hq. reflexivity.
    + cbn [snd w_files w_db w_gen write_file]. rewrite pystr_eqb_refl. auto.
Qed.



(** A chapter whose retrieval yields no verse unit runs no batch
    ([ceil(0 / 20) = 0]): it sends no request, its only write is the dump
    of the chapter catalog to [sb_chapters.json] made by
    [list_all_sb_chapters], and it counts as a completed chapter. *)
Theorem empty_chapter_no_batches {U : PyUnicode} (canto chapter : Z) (w : world) :
  get_texts_from_chapter (w_db w) canto chapter = inr [] ->
  get_names_from_chapter canto chapter w
  = (inr tt,
     {| w_db := w_db w;
        w_files := fun p => if pystr_eqb p sb_chapters_path
                            then Json (chapters_json (list_all_sb_chapters (w_db w)))
                            else w_files w p;
        w_gen := w_gen w;
        w_trace := w_trace w |}).
Proof.
  intros H. unfold get_names_from_chapter, bind at 1. rewrite get_texts_io_eq, H.
  reflexivity.
Qed.

Lemma empty_chapter_no_batches_witness :
  let w := world0 db_no_verses no_files failing_gen in
  get_texts_from_chapter (w_db w) 1 1 = inr [] /\
  get_names_from_chapter 1 1 w
  = (inr tt,
     {| w_db := w_db w;
        w_files := fun p => if pystr_eqb p sb_chapters_path
                            then Json (chapters_json (list_all_sb_chapters (w_db w)))
                            else w_files w p;
        w_gen := w_gen w;
        w_trace := w_trace w |}).
Proof.
  intros w.
  assert (H : get_texts_from_chapter (w_db w) 1 1 = inr []) by (vm_compute; reflexivity).
  split; [exact H|]. exact (empty_chapter_no_batches 1 1 w H).
Defined.

(** The driver stops with an error only for one that is not a
    [ValueError]; a [ValueError] raised by the chapter run at
    [(canto, chapter)] with [canto <= 12] moves the driver on to chapter 1
    of canto [canto + 1], in the world the failed run left. *)
Theorem driver_aborts_only_on_other_errors {U : PyUnicode} (fuel : nat) (canto chapter : Z)
        (w : world) :
  (forall e, fst (sb_loop fuel canto chapter w) = Aborted e -> is_value_error e = false) /\
  (forall e w', (canto <= 12)%Z ->
   get_names_from_chapter canto chapter w = (inl e, w') ->
   is_value_error e = true ->
   sb_loop (S fuel) canto chapter w = sb_loop fuel (canto + 1) 1 w').
Proof.
  split.
  - revert canto chapter w; induction fuel as [|fuel IH]; intros canto chapter w e H;
      cbn [sb_loop] in H; [discriminate|].
    destruct (canto <=? 12)%Z; [|discriminate].
    destruct (get_names_from_chapter canto chapter w) as [[e'|u] w'].
    + destruct (is_value_error e') eqn:V.
      * exact (IH _ _ _ _ H).
      * cbn [fst] in H. injection H as <-. exact V.
    + exact (IH _ _ _ _ H).
  - intros e w' Hc H V. cbn [sb_loop].
    rewrite (proj2 (Z.leb_le canto 12) Hc), H, V. reflexivity.
Qed.

Lemma driver_aborts_only_on_other_errors_witness :
  fst (sb_loop 3 1 1 (world0 db_two_verses no_files failing_gen)) = Aborted APIError /\
  is_value_error APIError = false /\
  get_names_from_chapter 1 1 world_corrupt_store
  = (inl UnicodeDecodeError, snd (get_names_from_chapter 1 1 world_corrupt_store)) /\
  sb_loop 20 1 1 world_corrupt_store
  = sb_loop 19 2 1 (snd (get_names_from_chapter 1 1 world_corrupt_store)).
Proof.
  assert (H : fst (sb_loop 3 1 1 (world0 db_two_verses no_files failing_gen))
              = Aborted APIError) by (vm_compute; reflexivity).
  assert (H2 : get_names_from_chapter 1 1 world_corrupt_store
               = (inl UnicodeDecodeError, snd (get_names_from_chapter 1 1 world_corrupt_store)))
    by (vm_compute; reflexivity).
  split; [exact H|].
  split; [exact (proj1 (driver_aborts_only_on_other_errors 3 1 1 _) _ H)|].
  split; [exact H2|].
  exact (proj2 (driver_aborts_only_on_other_errors 19 1 1 world_corrupt_store) _ _
           ltac:(lia) H2 eq_refl).
Defined.
